(** * khal.controllers: agenda construction and event creation

    A shallow embedding of [src/khal/controllers.py]: [construct_daynames],
    [get_agenda] and [NewFromString], with the properties the specification
    states about them.

    Conventions of the embedding.
    - A [datetime.date] is its proleptic Gregorian ordinal, an integer;
      [date + timedelta(days=k)] is integer addition.
    - A [datetime.datetime] is a number of microseconds, so that
      [datetime.combine(day, time.min)] and [datetime.combine(day, time.max)]
      are the first and the last microsecond of [day].
    - What the module imports and calls but does not define (the clock, the
      date parser [aux.datefstr], [date.strftime], [textwrap.wrap],
      [click.style], [terminal.colored], the calendar collection) is a
      variable of the section that uses it.
    - Leaving a function by [assert], by [sys.exit] or by the [ValueError]
      that [textwrap.wrap] raises for a width that is not positive is a
      constructor of [outcome]. *)

From Stdlib Require Import ZArith Lia Ascii String.
From stdpp Require Import base list sorting strings.

Local Open Scope Z_scope.

(** ** Python built-ins used by the module *)

(** [range(n)]: the integers [0, 1, ..., n-1]; empty when [n <= 0]. *)
Definition range (n : Z) : list Z := map Z.of_nat (seq 0 (Z.to_nat n)).

Section StableSort.
Context {A : Type} (key : A → Z).

(** [list.sort(key=key)] is a stable ascending sort. It is embedded as the
    insertion sort that puts an element in front of the first element whose
    key is not smaller: elements with equal keys keep their order. *)
Fixpoint insert_by (x : A) (l : list A) : list A :=
  match l with
  | [] => [x]
  | y :: l' => if key x <=? key y then x :: l else y :: insert_by x l'
  end.

Fixpoint sort_by (l : list A) : list A :=
  match l with
  | [] => []
  | x :: l' => insert_by x (sort_by l')
  end.

(** Ascending in the key. *)
Definition key_le (x y : A) : Prop := key x ≤ key y.

(** The elements whose key is [k], in the order of the list. *)
Definition with_key (k : Z) (l : list A) : list A :=
  filter (λ x, key x = k) l.
End StableSort.

(** ** textwrap.wrap

    [get_agenda] wraps with [textwrap.wrap(text, width)], of Python's
    standard library, with the default options (long words are broken,
    blanks at the ends of a line are dropped, no indent, no line limit).
    What follows is [TextWrapper._wrap_chunks] and [_handle_long_word] of
    CPython's Lib/textwrap.py. A text is a list of characters. The list
    [chunks] is in the order of the text: its head is the chunk the Python
    code pops from the end of the reversed list. [_split_chunks], which
    normalises blanks and cuts the text into chunks with a regular
    expression, is a parameter of [wrap]. *)

Module TextWrap.
Abbreviation text := (list ascii).

(** [c.isspace()], for ASCII. *)
Definition is_space (c : ascii) : bool :=
  let n := nat_of_ascii c in
  ((9 <=? n) && (n <=? 13) || (28 <=? n) && (n <=? 32))%nat.

(** [s.strip() == '']. *)
Definition blank (s : text) : bool := forallb is_space s.

Definition is_hyphen (c : ascii) : bool := Ascii.eqb c "-".

(** [chunk.rfind('-', 0, stop)]: the last index below [stop] that holds a
    hyphen, or -1. *)
Fixpoint rfind_hyphen_from (i : nat) (found : Z) (s : text) : Z :=
  match s with
  | [] => found
  | c :: s' =>
      rfind_hyphen_from (S i) (if is_hyphen c then Z.of_nat i else found) s'
  end.

Definition rfind_hyphen (chunk : text) (stop : Z) : Z :=
  rfind_hyphen_from 0 (-1) (take (Z.to_nat stop) chunk).

(** Where [_handle_long_word] breaks [chunk]: at [space_left], or right
    after the last hyphen before it when one has a non-hyphen before it
    (before Python 3.10: always at [space_left]). *)
Definition long_word_end (chunk : text) (space_left : Z) : Z :=
  if space_left <? Z.of_nat (length chunk) then
    let hyphen := rfind_hyphen chunk space_left in
    if (0 <? hyphen)
       && existsb (λ c, negb (is_hyphen c)) (take (Z.to_nat hyphen) chunk)
    then hyphen + 1
    else space_left
  else space_left.

(** [_handle_long_word(reversed_chunks, cur_line, cur_len, width)], with
    [break_long_words]. *)
Definition handle_long_word (chunks cur_line : list text) (cur_len width : Z)
  : list text * list text :=
  let space_left := if width <? 1 then 1 else width - cur_len in
  match chunks with
  | [] => (chunks, cur_line)
  | chunk :: rest =>
      let end_ := Z.to_nat (long_word_end chunk space_left) in
      (drop end_ chunk :: rest, cur_line ++ [take end_ chunk])
  end.

(** The inner loop of [_wrap_chunks]: chunks are moved to [cur_line] while
    they fit. *)
Fixpoint take_fitting (width : Z) (chunks cur_line : list text) (cur_len : Z)
  : list text * list text * Z :=
  match chunks with
  | [] => (chunks, cur_line, cur_len)
  | chunk :: rest =>
      let l := Z.of_nat (length chunk) in
      if cur_len + l <=? width
      then take_fitting width rest (cur_line ++ [chunk]) (cur_len + l)
      else (chunks, cur_line, cur_len)
  end.

Definition is_nil {A} (l : list A) : bool :=
  match l with [] => true | _ => false end.

(** [if ... chunks[-1].strip() == '' and lines: del chunks[-1]]. *)
Definition drop_leading_blank (chunks lines : list text) : list text :=
  match chunks with
  | chunk :: rest => if blank chunk && negb (is_nil lines) then rest else chunks
  | [] => chunks
  end.

(** [if ... cur_line and cur_line[-1].strip() == '': del cur_line[-1]]. *)
Definition drop_trailing_blank (cur_line : list text) : list text :=
  match last cur_line with
  | Some chunk => if blank chunk then removelast cur_line else cur_line
  | None => cur_line
  end.

(** One pass of the outer loop of [_wrap_chunks], on non-empty [chunks]. *)
Definition wrap_line (width : Z) (chunks lines : list text)
  : list text * list text :=
  let chunks := drop_leading_blank chunks lines in
  let '(chunks, cur_line, cur_len) := take_fitting width chunks [] 0 in
  let '(chunks, cur_line) :=
    match chunks with
    | chunk :: _ =>
        if width <? Z.of_nat (length chunk)
        then handle_long_word chunks cur_line cur_len width
        else (chunks, cur_line)
    | [] => (chunks, cur_line)
    end in
  let cur_line := drop_trailing_blank cur_line in
  let lines :=
    if is_nil cur_line then lines else lines ++ [concat cur_line] in
  (chunks, lines).

(** The outer loop, [while chunks:], for at most [fuel] passes; [None] when
    they do not suffice. *)
Fixpoint wrap_loop (fuel : nat) (width : Z) (chunks lines : list text)
  : option (list text) :=
  match chunks, fuel with
  | [], _ => Some lines
  | _, O => None
  | _, S fuel =>
      let '(chunks, lines) := wrap_line width chunks lines in
      wrap_loop fuel width chunks lines
  end.

(** A bound on the number of passes: every pass uses up a chunk or a
    character ([TextWrapFacts.wrap_loop_terminates]). *)
Definition weight (chunks : list text) : nat :=
  sum_list_with (λ chunk, S (length chunk)) chunks.

(** [_wrap_chunks(chunks)]; [None] is the [ValueError] raised for a width
    that is not positive. *)
Definition wrap_chunks (width : Z) (chunks : list text) : option (list text) :=
  if width <=? 0 then None
  else wrap_loop (weight chunks) width chunks [].


(** The number of characters of all the chunks. *)
Definition total (chunks : list text) : Z := Z.of_nat (length (concat chunks)).


Section Wrap.
(** [TextWrapper._split_chunks(text)]. *)
Variable split_chunks : string → list text.

(** [textwrap.wrap(text, width)]. *)
Definition wrap (text : string) (width : Z) : option (list string) :=
  option_map (map string_of_list_ascii)
    (wrap_chunks width (split_chunks text)).
End Wrap.
End TextWrap.

(** ** Data *)

Definition date := Z.
Definition datetime := Z.

(** [d + datetime.timedelta(days=k)]. *)
Definition add_days (d : date) (k : Z) : date := d + k.

Definition microseconds_per_day : Z := 86400000000.
(** [datetime.time.min] and [datetime.time.max], in microseconds. *)
Definition time_min : Z := 0.
Definition time_max : Z := 86399999999.
(** [datetime.datetime.combine(day, t)]. *)
Definition combine (day : date) (t : Z) : datetime :=
  day * microseconds_per_day + t.

(** An entry of the [dates] argument: a string still to be parsed, or a
    [datetime.date]. *)
Inductive date_arg :=
| DateStr (s : string)
| DateObj (d : date).

(** The keys of [locale] the module reads. *)
Record Locale := {
  dateformat : string;
  longdateformat : string;
  encoding : string
}.

(** [khal.khalendar.event.Event], as far as the module uses it. *)
Record Event := {
  start : datetime;
  color : string;
  compact : date → string;
  long : string;
  calendar : string;
  href : string
}.

(** How a call ends: it returns, an [assert] fails, [sys.exit(status)] is
    reached after the messages in [logged] went to the logger, or the
    [ValueError] that [textwrap.wrap] raises leaves the call. *)
Inductive outcome (A : Type) :=
| Returned (a : A)
| AssertionError
| SystemExit (logged : list string) (status : Z)
| ValueError.
Arguments Returned {A} a.
Arguments AssertionError {A}.
Arguments SystemExit {A} logged status.
Arguments ValueError {A}.

(** ** construct_daynames *)

Section DayNames.
(** [datetime.date.today()]. *)
Variable today : date.
(** [date.strftime(format)]. *)
Variable strftime : date → string → string.

Fixpoint construct_daynames (daylist : list date) (longdateformat : string)
  : list (date * string) :=
  match daylist with
  | [] => []
  | date :: daylist' =>
      (if bool_decide (date = today) then (date, "Today:"%string)
       else if bool_decide (date = add_days today 1) then (date, "Tomorrow:"%string)
       else (date, strftime date longdateformat))
      :: construct_daynames daylist' longdateformat
  end.

(** The label rule in the words of the specification. *)
Definition day_label (longdateformat : string) (d : date) : string :=
  if bool_decide (d = today) then "Today:"%string
  else if bool_decide (d = today + 1) then "Tomorrow:"%string
  else strftime d longdateformat.
End DayNames.

(** ** get_agenda *)

(** [khalendar.CalendarCollection]: the two queries [get_agenda] makes. *)
Record CalendarCollection := {
  get_allday_by_time_range : date → list Event;
  get_datetime_by_time_range : datetime → datetime → list Event
}.

(** Lines 99-101: [[date + timedelta(days=one) for one in range(days)
    for date in dates]], then [daylist.sort()]. *)
Definition expand_days (dates : list date) (days : Z) : list date :=
  sort_by id
    (flat_map (λ one, map (λ date, add_days date one) dates) (range days)).

(** The expansion in the words of the specification: for each date the
    [n] consecutive days [date, date+1, ..., date+n-1], flattened, then
    sorted chronologically by a stable sort. *)
Definition consecutive_days (d : date) (n : Z) : list date :=
  map (λ k, d + k) (range n).

Definition expand_spec (dates : list date) (n : Z) : list date :=
  sort_by id (flat_map (λ d, consecutive_days d n) dates).

Section Agenda.
Variable today : date.
Variable strftime : date → string → string.
(** [aux.datefstr(string, dateformat, longdateformat)]: the date, or the
    message of the [aux.InvalidDate] it raises. *)
Variable datefstr : string → string → string → string + date.
(** The segments [textwrap.wrap(text, width)] returns, for a positive
    width; [wrap_call] below is the call, with the [ValueError] it raises
    for a width that is not positive. What it computes is [TextWrap.wrap]. *)
Variable wrap : string → Z → list string.
(** [click.style(text, bold=True)]. *)
Variable style_bold : string → string.
(** [terminal.colored(text, color)]. *)
Variable colored : string → string → string.

(** Lines 89-93: the list comprehension under [try]; the first entry that
    does not parse ends it with [InvalidDate]. *)
Fixpoint resolve_dates (locale : Locale) (dates : list date_arg)
  : string + list date :=
  match dates with
  | [] => inr []
  | a :: dates' =>
      match
        match a with
        | DateObj d => inr d
        | DateStr s => datefstr s (dateformat locale) (longdateformat locale)
        end
      with
      | inl error => inl error
      | inr d =>
          match resolve_dates locale dates' with
          | inl error => inl error
          | inr ds => inr (d :: ds)
          end
      end
  end.

(** Lines 118-119: the lines of one event, where [textwrap.wrap]
    returns. *)
Definition event_lines (width : Z) (day : date) (event : Event)
  : list string :=
  let desc := wrap (compact event day) width in
  map (λ d, colored d (color event)) desc.

(** Lines 106-119: the body of the loop over [daylist], on the state
    [event_column], where [textwrap.wrap] returns: the lines the body
    builds. [agenda_day_raising] below is the body with the exception. *)
Definition agenda_day (collection : CalendarCollection) (width : Z)
    (show_all_days : bool) (event_column : list string)
    (entry : date * string) : list string :=
  let '(day, dayname) := entry in
  let start_ := combine day time_min in
  let end_ := combine day time_max in
  let all_day_events := get_allday_by_time_range collection day in
  let events := get_datetime_by_time_range collection start_ end_ in
  if (length events =? 0)%nat && (length all_day_events =? 0)%nat
     && negb show_all_days
  then event_column
  else
    let event_column := event_column ++ [style_bold dayname] in
    let events := sort_by start events in
    fold_left (λ column event, column ++ event_lines width day event)
      (all_day_events ++ events) event_column.

(** Lines 105-119: the loop. *)
Definition agenda_loop (collection : CalendarCollection) (width : Z)
    (show_all_days : bool) (daylist : list (date * string))
    (event_column : list string) : list string :=
  fold_left (agenda_day collection width show_all_days) daylist
    event_column.

(** What the body adds to the column for one day. *)
Definition day_block (collection : CalendarCollection) (width : Z)
    (show_all_days : bool) (entry : date * string) : list string :=
  agenda_day collection width show_all_days [] entry.

(** The call [textwrap.wrap(text, width)] of line 118: it raises
    [ValueError] for a width that is not positive (the first test of
    [TextWrap.wrap_chunks]) and returns the segments [wrap text width]
    otherwise. [None] is the exception. *)
Definition wrap_call (text : string) (width : Z) : option (list string) :=
  if width <=? 0 then None else Some (wrap text width).

(** Lines 106-119 with the exception: [get_agenda] does not catch the
    [ValueError] of line 118, which ends the inner loop, the loop over the
    days and the call. *)
Definition agenda_day_raising (collection : CalendarCollection) (width : Z)
    (show_all_days : bool) (event_column : list string)
    (entry : date * string) : option (list string) :=
  let '(day, dayname) := entry in
  let start_ := combine day time_min in
  let end_ := combine day time_max in
  let all_day_events := get_allday_by_time_range collection day in
  let events := get_datetime_by_time_range collection start_ end_ in
  if (length events =? 0)%nat && (length all_day_events =? 0)%nat
     && negb show_all_days
  then Some event_column
  else
    let event_column := event_column ++ [style_bold dayname] in
    let events := sort_by start events in
    fold_left
      (λ column event,
         match column with
         | None => None
         | Some column =>
             match wrap_call (compact event day) width with
             | None => None
             | Some desc =>
                 Some (column ++ map (λ d, colored d (color event)) desc)
             end
         end)
      (all_day_events ++ events) (Some event_column).

(** Lines 105-119 with the exception. *)
Definition agenda_loop_raising (collection : CalendarCollection) (width : Z)
    (show_all_days : bool) (daylist : list (date * string))
    (event_column : list string) : option (list string) :=
  fold_left
    (λ column entry,
       match column with
       | None => None
       | Some column =>
           agenda_day_raising collection width show_all_days column entry
       end)
    daylist (Some event_column).

(** Lines 85-96: the dates asked for; [today] when there are none. *)
Definition agenda_dates (locale : Locale) (dates : option (list date_arg))
  : string + list date :=
  match dates with
  | None | Some [] => inr [today]
  | Some dates => resolve_dates locale dates
  end.

(** Lines 98-103: the day list the loop runs over. The guard
    [days is not None] of line 98 holds always, [days] having been set on
    line 83. *)
Definition agenda_daylist (locale : Locale) (dates : list date) (days : Z)
  : list (date * string) :=
  construct_daynames today strftime (expand_days dates days)
    (longdateformat locale).

(** Lines 82-83. *)
Definition days_default (days : option Z) : Z :=
  match days with None => 2 | Some n => n end.

Definition get_agenda (collection : CalendarCollection) (locale : Locale)
    (dates : option (list date_arg)) (days : option Z)
    (events : option (list Event)) (width : Z) (show_all_days : bool)
  : outcome (list string) :=
  if bool_decide (days ≠ None) && bool_decide (events ≠ None)
  then AssertionError
  else
    let event_column := [] in
    let days := days_default days in
    match agenda_dates locale dates with
    | inl error => SystemExit [error] 1
    | inr dates =>
        let daylist := agenda_daylist locale dates days in
        match
          agenda_loop_raising collection width show_all_days daylist
            event_column
        with
        | None => ValueError
        | Some event_column =>
            Returned
              (match event_column with
               | [] => [style_bold "No events"%string]
               | _ => event_column
               end)
        end
    end.
End Agenda.

(** ** NewFromString *)

(** What a run does that can be observed, in order. *)
Inductive action :=
| Log (message : string)      (* [logger.fatal(message)] *)
| Echo (text : string)        (* [click.echo(text)] *)
| Store (event : Event)       (* [collection.new(event)] took the event *)
| Exit (status : Z).          (* [sys.exit(status)] *)

(** The keys of [conf] the constructor reads. *)
Record Conf := {
  locale : Locale;
  print_new : string
}.

(** The collection, as far as [NewFromString] uses it. *)
Record Calendars := {
  default_calendar_name : string;
  (** [collection.new(event)]: [false] when it raises
      [ReadOnlyCalendarError]. *)
  new : Event → bool;
  (** [collection._calnames[name].path]. *)
  calname_path : string → string
}.

Section NewFromString.
(** What [aux.construct_event] returns. *)
Variable VEvent : Type.
(** [aux.construct_event(date_list, location=, repeat=, **locale)]: what it
    did, and the event, or [None] when it raised [FatalError]. *)
Variable construct_event :
  list string → option string → option string → Locale →
  list action * option VEvent.
(** [Event(vevent, calendar_name, locale=locale)]. *)
Variable make_Event : VEvent → string → Locale → Event.
(** [text.encode(encoding)]. *)
Variable encode : string → string → string.

(** The double quote character, code point 34. *)
Definition double_quote : string :=
  String (Ascii.ascii_of_nat 34) EmptyString.

Definition read_only_message (name : string) : string :=
  String.append "ERROR: Cannot modify calendar "
    (String.append double_quote
       (String.append name
          (String.append double_quote " as it is read-only"))).

(** Lines 159-183, as the trace of the run. *)
Definition NewFromString (collection : Calendars) (conf : Conf)
    (date_list : list string) (location repeat : option string)
  : list action :=
  match construct_event date_list location repeat (locale conf) with
  | (parsing, None) => parsing ++ [Exit 1]
  | (parsing, Some event) =>
      let event :=
        make_Event event (default_calendar_name collection) (locale conf) in
      if new collection event then
        parsing ++ [Store event] ++
        (if String.eqb (print_new conf) "event" then [Echo (long event)]
         else if String.eqb (print_new conf) "path" then
           let path :=
             String.append (calname_path collection (calendar event))
               (href event) in
           [Echo (encode path (encoding (locale conf)))]
         else [])
      else
        parsing
        ++ [Log (read_only_message (default_calendar_name collection));
            Exit 1]
  end.
End NewFromString.

(** ** Sample data

    The calendar of the command-line tests: one timed event, "An Event", on
    2014-04-09 from 09:30 to 10:30; and a busier day for the ordering of
    events. Styling and wrapping are the plainest possible: no escape
    sequence, no line break. *)

Module Sample.
Definition apr_9 : date := 735332.
Definition today : date := 735900.

Definition strftime (d : date) (fmt : string) : string :=
  if bool_decide (d = apr_9) then "09.04.2014"%string else fmt.

Definition datefstr (s dateformat longdateformat : string) : string + date :=
  if String.eqb s "09.04.2014" then inr apr_9
  else inl (String.append "invalid date: " s).

Definition wrap (text : string) (width : Z) : list string := [text].
Definition style_bold (text : string) : string := text.
Definition colored (text color : string) : string := text.

Definition de_locale : Locale :=
  {| dateformat := "%d.%m."; longdateformat := "%d.%m.%Y";
     encoding := "utf-8" |}.

Definition hour : Z := 3600000000.

Definition timed (day : date) (t : Z) (text : string) : Event :=
  {| start := combine day t; color := "dark blue"; compact := λ _, text;
     long := text; calendar := "one"; href := "test.ics" |}.

Definition an_event : Event :=
  timed apr_9 (9 * hour + hour / 2) "09:30-10:30: An Event".

Definition within (start_ end_ : datetime) (e : Event) : bool :=
  (start_ <=? start e) && (start e <=? end_).

Definition collection : CalendarCollection :=
  {| get_allday_by_time_range := λ _, [];
     get_datetime_by_time_range := λ start_ end_,
       filter (λ e, within start_ end_ e = true) [an_event] |}.

Definition holiday : Event := timed apr_9 0 "Holiday".
Definition lunch : Event := timed apr_9 (12 * hour) "12:00-13:00: Lunch".
Definition standup : Event := timed apr_9 (9 * hour) "09:00-09:15: Standup".
Definition coffee : Event := timed apr_9 (9 * hour) "09:00-09:30: Coffee".

Definition busy_collection : CalendarCollection :=
  {| get_allday_by_time_range := λ day,
       if bool_decide (day = apr_9) then [holiday] else [];
     get_datetime_by_time_range := λ start_ end_,
       filter (λ e, within start_ end_ e = true) [lunch; standup; coffee] |}.

(** The chunks of a text without tabs, hyphenated words or dashes: its
    maximal runs of blanks and of other characters. *)
Fixpoint runs (s : list ascii) : list (list ascii) :=
  match s with
  | [] => []
  | c :: s' =>
      match runs s' with
      | (d :: run) :: chunks =>
          if Bool.eqb (TextWrap.is_space c) (TextWrap.is_space d)
          then (c :: d :: run) :: chunks
          else [c] :: (d :: run) :: chunks
      | chunks => [c] :: chunks
      end
  end.

Definition split_chunks (text : string) : list (list ascii) :=
  runs (list_ascii_of_string text).

(** [textwrap.wrap], for a positive width. *)
Definition textwrap (text : string) (width : Z) : list string :=
  default [] (TextWrap.wrap split_chunks text width).

(** An all-day event whose summary ends in a blank. *)
Definition meeting : Event := timed apr_9 0 "Team meeting ".

Definition meeting_collection : CalendarCollection :=
  {| get_allday_by_time_range := λ day,
       if bool_decide (day = apr_9) then [meeting] else [];
     get_datetime_by_time_range := λ _ _, [] |}.

Definition calendars (writable : bool) : Calendars :=
  {| default_calendar_name := "one"; new := λ _, writable;
     calname_path := λ name, String.append "/calendars/" name |}.

Definition conf : Conf := {| locale := de_locale; print_new := "event" |}.

(** A parser that raises [FatalError] and does nothing else, and one that
    logs before it raises. *)
Definition silent_parser (date_list : list string)
    (location repeat : option string) (locale : Locale)
  : list action * option Event :=
  ([], None).


Definition make_Event (e : Event) (name : string) (locale : Locale) : Event :=
  e.

Definition encode (text encoding : string) : string := text.
End Sample.

(** ** Calendar and Agenda *)

(** [isinstance(date, datetime.date)], line 91. *)
Definition is_date (a : date_arg) : bool :=
  match a with DateObj _ => true | DateStr _ => false end.

(** The negation of the two length tests of line 112: the collection
    returns an event for [day]. *)
Definition has_events (collection : CalendarCollection) (day : date) : bool :=
  negb
    ((length (get_datetime_by_time_range collection
                (combine day time_min) (combine day time_max)) =? 0)%nat
     && (length (get_allday_by_time_range collection day) =? 0)%nat).

(** Some day of the day list has an event: the loop reaches the call of
    [textwrap.wrap] on line 118. *)
Definition wraps_event (collection : CalendarCollection)
    (daylist : list (date * string)) : bool :=
  existsb (λ entry, has_events collection entry.1) daylist.

(** The keyword arguments [Calendar] and [Agenda] pass on to [get_agenda]
    with [**kwargs]: [locale], which [get_agenda] requires, and [days] and
    [events] when given. *)
Record AgendaKwargs := {
  kw_locale : Locale;
  kw_days : option Z;
  kw_events : option (list Event)
}.

(** The line feed character, code point 10. *)
Definition newline : string := String (Ascii.ascii_of_nat 10) EmptyString.

(** [newline.join(rows)]. *)
Definition join_lines (rows : list string) : string :=
  String.concat newline rows.

(** Lines 131-132: the width left for the agenda beside the month. *)
Definition lwidth : Z := 25.
Definition rwidth (term_width : Z) : Z := term_width - lwidth - 4.

Section Renderers.
Variable today : date.
Variable strftime : date → string → string.
Variable datefstr : string → string → string → string + date.
Variable wrap : string → Z → list string.
Variable style_bold : string → string.
Variable colored : string → string → string.
(** [terminal.get_terminal_size()]: columns and rows. *)
Variable get_terminal_size : Z * Z.
(** [compat.to_unicode(text, encoding)] and [text.encode(encoding)]. *)
Variable to_unicode : string → string → string.
Variable encode : string → string → string.
(** [calendar_display.vertical_month(firstweekday=, weeknumber=)]. *)
Variable vertical_month : Z → bool → list string.
(** [terminal.merge_columns(left, right)]. *)
Variable merge_columns : list string → list string → list string.

(** Lines 128-142. What is returned is what the constructor echoed; an
    assertion failure or an exit of [get_agenda] ends it. *)
Definition Calendar (collection : CalendarCollection)
    (date : option (list date_arg)) (firstweekday : Z) (encoding : string)
    (weeknumber show_all_days : bool) (kwargs : AgendaKwargs)
  : outcome (list action) :=
  let '(term_width, _) := get_terminal_size in
  match
    get_agenda today strftime datefstr wrap style_bold colored collection
      (kw_locale kwargs) date (kw_days kwargs) (kw_events kwargs)
      (rwidth term_width) show_all_days
  with
  | Returned event_column =>
      let calendar_column := vertical_month firstweekday weeknumber in
      let rows := merge_columns calendar_column event_column in
      Returned [Echo (encode (join_lines rows) encoding)]
  | AssertionError => AssertionError
  | SystemExit logged status => SystemExit logged status
  | ValueError => ValueError
  end.

(** Lines 147-154. *)
Definition Agenda (collection : CalendarCollection)
    (date : option (list date_arg)) (firstweekday : Z) (encoding : string)
    (show_all_days : bool) (kwargs : AgendaKwargs)
  : outcome (list action) :=
  let '(term_width, _) := get_terminal_size in
  match
    get_agenda today strftime datefstr wrap style_bold colored collection
      (kw_locale kwargs) date (kw_days kwargs) (kw_events kwargs)
      term_width show_all_days
  with
  | Returned event_column =>
      Returned [Echo (to_unicode (join_lines event_column) encoding)]
  | AssertionError => AssertionError
  | SystemExit logged status => SystemExit logged status
  | ValueError => ValueError
  end.
End Renderers.

(** ** More sample data

    A terminal of 80 columns, a parser that understands its input, and a day
    whose timed events come in ascending order. Encoding leaves the text as
    it is; the month is one line, and merging puts the agenda under it. *)

Module Sample2.
Definition get_terminal_size : Z * Z := (80, 24).
Definition to_unicode (text encoding : string) : string := text.
Definition vertical_month (firstweekday : Z) (weeknumber : bool)
  : list string :=
  ["Mo Tu We Th Fr Sa Su"%string].
Definition merge_columns (left right : list string) : list string :=
  left ++ right.

Definition kwargs : AgendaKwargs :=
  {| kw_locale := Sample.de_locale; kw_days := None; kw_events := None |}.


Definition parser (date_list : list string)
    (location repeat : option string) (locale : Locale)
  : list action * option Event :=
  ([], Some Sample.an_event).

Definition quiet_conf : Conf :=
  {| locale := Sample.de_locale; print_new := "False" |}.
Definition path_conf : Conf :=
  {| locale := Sample.de_locale; print_new := "path" |}.
End Sample2.

(** * Properties *)

(** ** The stable sort *)

Section StableSortFacts.
Context {A : Type} (key : A → Z).
Implicit Types (x y : A) (l : list A) (k : Z).

Lemma insert_by_Permutation x l : insert_by key x l ≡ₚ x :: l.
Proof.
  induction l as [|y l IH]; simpl; [done|].
  destruct (key x <=? key y); [done|].
  rewrite IH. apply perm_swap.
Qed.

Lemma sort_by_Permutation l : sort_by key l ≡ₚ l.
Proof.
  induction l as [|x l IH]; simpl; [done|].
  by rewrite insert_by_Permutation, IH.
Qed.

Lemma sort_by_length l : length (sort_by key l) = length l.
Proof. by rewrite sort_by_Permutation. Qed.

Lemma insert_by_sorted x l :
  StronglySorted (key_le key) l → StronglySorted (key_le key) (insert_by key x l).
Proof.
  induction 1 as [|y l Hl IH Hy]; simpl.
  - repeat constructor.
  - destruct (Z.leb_spec (key x) (key y)) as [Hxy|Hxy].
    + constructor; [by constructor|].
      constructor; [done|].
      eapply Forall_impl; [exact Hy|]. unfold key_le. intros; lia.
    + constructor; [done|].
      rewrite insert_by_Permutation. constructor; [|done].
      unfold key_le. lia.
Qed.

Lemma sort_by_sorted l : StronglySorted (key_le key) (sort_by key l).
Proof.
  induction l as [|x l IH]; simpl; [constructor|by apply insert_by_sorted].
Qed.

Lemma with_key_cons k x l :
  with_key key k (x :: l)
  = if bool_decide (key x = k) then x :: with_key key k l
    else with_key key k l.
Proof.
  unfold with_key. rewrite filter_cons.
  by destruct (decide (key x = k)) as [H|H];
    [rewrite bool_decide_eq_true_2|rewrite bool_decide_eq_false_2].
Qed.

Lemma insert_by_with_key k x l :
  with_key key k (insert_by key x l) = with_key key k (x :: l).
Proof.
  induction l as [|y l IH]; simpl; [done|].
  destruct (Z.leb_spec (key x) (key y)) as [Hxy|Hxy]; [done|].
  rewrite (with_key_cons k y), IH, !with_key_cons.
  repeat case_bool_decide; try done; lia.
Qed.

(** Stability: for each key, the elements with that key come out in the
    order they went in. *)
Lemma sort_by_stable k l : with_key key k (sort_by key l) = with_key key k l.
Proof.
  induction l as [|x l IH]; simpl; [done|].
  by rewrite insert_by_with_key, !with_key_cons, IH.
Qed.

(** There is one ascending list with given elements per key, so every
    stable ascending sort computes [sort_by]. *)
Lemma stable_sorted_unique l1 l2 :
  StronglySorted (key_le key) l1 → StronglySorted (key_le key) l2 →
  (∀ k, with_key key k l1 = with_key key k l2) → l1 = l2.
Proof.
  intros H1. revert l2.
  induction H1 as [|x l1 Hl1 IH Hx]; intros l2 H2 Heq.
  - destruct l2 as [|y l2]; [done|].
    specialize (Heq (key y)). rewrite with_key_cons in Heq.
    by rewrite bool_decide_eq_true_2 in Heq.
  - destruct H2 as [|y l2 Hl2 Hy].
    { specialize (Heq (key x)). rewrite with_key_cons in Heq.
      by rewrite bool_decide_eq_true_2 in Heq. }
    assert (key x ≤ key y) as Hxy.
    { pose proof (Heq (key y)) as Hk. rewrite !with_key_cons in Hk.
      rewrite (bool_decide_eq_true_2 (key y = key y)) in Hk by done.
      case_bool_decide; [lia|].
      assert (y ∈ with_key key (key y) l1) as Hin by (rewrite Hk; left).
      apply list_elem_of_filter in Hin as [_ Hin].
      rewrite Forall_forall in Hx. by apply Hx. }
    assert (key y ≤ key x) as Hyx.
    { pose proof (Heq (key x)) as Hk. rewrite !with_key_cons in Hk.
      rewrite (bool_decide_eq_true_2 (key x = key x)) in Hk by done.
      case_bool_decide; [lia|].
      assert (x ∈ with_key key (key x) l2) as Hin by (rewrite <-Hk; left).
      apply list_elem_of_filter in Hin as [_ Hin].
      rewrite Forall_forall in Hy. by apply Hy. }
    assert (x = y) as ->.
    { pose proof (Heq (key x)) as Hk. rewrite !with_key_cons in Hk.
      rewrite !bool_decide_eq_true_2 in Hk by lia. congruence. }
    f_equal. apply IH; [done|]. intros k.
    specialize (Heq k). rewrite !with_key_cons in Heq.
    case_bool_decide; congruence.
Qed.

Lemma sort_by_unique l l' :
  StronglySorted (key_le key) l' →
  (∀ k, with_key key k l' = with_key key k l) → l' = sort_by key l.
Proof.
  intros Hs Hk. apply stable_sorted_unique; [done|apply sort_by_sorted|].
  intros k. by rewrite sort_by_stable.
Qed.
End StableSortFacts.

(** ** Day expansion *)

Lemma elem_of_range (k n : Z) : k ∈ range n ↔ 0 ≤ k < n.
Proof.
  unfold range. rewrite list_elem_of_fmap. split.
  - intros (i & -> & Hi). apply list_elem_of_In, in_seq in Hi. lia.
  - intros Hk. exists (Z.to_nat k). split; [lia|].
    apply list_elem_of_In, in_seq. lia.
Qed.

Lemma length_range (n : Z) : length (range n) = Z.to_nat n.
Proof. unfold range. by rewrite length_map, length_seq. Qed.

Lemma range_nonpos (n : Z) : n ≤ 0 → range n = [].
Proof. intros Hn. unfold range. by replace (Z.to_nat n) with 0%nat by lia. Qed.

Lemma flat_map_cons_Permutation {A B} (g : A → B) (h : A → list B) (l : list A) :
  flat_map (λ a, g a :: h a) l ≡ₚ map g l ++ flat_map h l.
Proof.
  induction l as [|a l IH]; simpl; [done|].
  rewrite IH. constructor.
  rewrite !(assoc (++)). apply Permutation_app_tail, Permutation_app_comm.
Qed.

(** Exchanging the two [for] clauses of a comprehension permutes it. *)
Lemma flat_map_exchange {A B C} (f : A → B → C) (la : list A) (lb : list B) :
  flat_map (λ b, map (λ a, f a b) la) lb ≡ₚ flat_map (λ a, map (f a) lb) la.
Proof.
  induction la as [|a la IH]; simpl.
  - induction lb as [|b lb IHb]; simpl; done.
  - rewrite flat_map_cons_Permutation. by apply Permutation_app_head.
Qed.

Lemma length_flat_map_const {A B} (f : A → list B) (n : nat) (l : list A) :
  (∀ a, length (f a) = n) → length (flat_map f l) = (length l * n)%nat.
Proof.
  intros Hf. induction l as [|a l IH]; simpl; [done|].
  by rewrite length_app, Hf, IH.
Qed.

#[local] Instance key_le_id_antisymm : AntiSymm (=) (key_le (@id Z)).
Proof. intros x y. unfold key_le, id. lia. Qed.

(** On dates, a sorted list is determined by its elements. *)
Lemma sort_by_id_Permutation (l1 l2 : list Z) :
  l1 ≡ₚ l2 → sort_by id l1 = sort_by id l2.
Proof.
  intros Hp. apply (StronglySorted_unique (key_le id)).
  - apply sort_by_sorted.
  - apply sort_by_sorted.
  - by rewrite !sort_by_Permutation.
Qed.

Lemma expand_days_Permutation (dates : list date) (n : Z) :
  expand_days dates n ≡ₚ flat_map (λ d, consecutive_days d n) dates.
Proof.
  unfold expand_days. rewrite sort_by_Permutation.
  apply (flat_map_exchange (λ d k, d + k)).
Qed.

Example expand_days_overlap : expand_days [10; 11] 2 = [10; 11; 11; 12].
Proof. reflexivity. Qed.

(** C2. The day list [get_agenda] expands from the resolved dates and the
    day count [n] is the specification's: the days [d + k], for [d] in
    [dates] and [0 <= k < n], flattened and stably sorted; it is ascending,
    and it holds every [d + k] as often as it arises, so that overlapping
    ranges give a date more than once and the list has [len(dates) * n]
    entries. Holds for every list and every [n], in particular for the
    non-empty lists and [n >= 0] of the claim. *)
Theorem expand_days_sorted_multiset (dates : list date) (n : Z) :
  expand_days dates n = expand_spec dates n
  ∧ StronglySorted Z.le (expand_days dates n)
  ∧ expand_days dates n ≡ₚ flat_map (λ d, consecutive_days d n) dates
  ∧ (∀ x, x ∈ expand_days dates n ↔ ∃ d k, d ∈ dates ∧ 0 ≤ k < n ∧ x = d + k)
  ∧ length (expand_days dates n) = (length dates * Z.to_nat n)%nat.
Proof.
  split; [|split; [|split; [|split]]].
  - unfold expand_days, expand_spec. apply sort_by_id_Permutation.
    apply (flat_map_exchange (λ d k, d + k)).
  - exact (sort_by_sorted id _).
  - apply expand_days_Permutation.
  - intros x. rewrite expand_days_Permutation, list_elem_of_In, in_flat_map.
    split.
    + intros (d & Hd & Hx). apply list_elem_of_In in Hd, Hx.
      unfold consecutive_days in Hx.
      apply list_elem_of_fmap in Hx as (k & -> & Hk).
      apply elem_of_range in Hk. by exists d, k.
    + intros (d & k & Hd & Hk & ->). exists d.
      split; [by apply list_elem_of_In|].
      apply list_elem_of_In, list_elem_of_fmap. exists k.
      split; [done|by apply elem_of_range].
  - rewrite expand_days_Permutation. apply length_flat_map_const.
    intros d. unfold consecutive_days. by rewrite length_map, length_range.
Qed.

(** C3, as stated, fails: expanding the one date 2014-04-09 (ordinal
    735332) with a day count of 0 gives the empty list, not the list of that
    date. *)
Lemma expand_days_zero_counterexample :
  expand_days [735332] 0 ≠ sort_by id [735332].
Proof. discriminate. Qed.

(** C3, amended. With a day count of 0 the expanded day list is empty,
    whatever the dates ([range(0)] is empty); it is with a day count of 1
    that the expanded day list is the date list itself, duplicates kept,
    sorted chronologically. *)
Theorem expand_days_zero_one (dates : list date) :
  expand_days dates 0 = []
  ∧ expand_days dates 1 = sort_by id dates.
Proof.
  split; [reflexivity|].
  unfold expand_days. change (range 1) with [0]. cbn [flat_map].
  rewrite app_nil_r. f_equal.
  induction dates as [|d dates IH]; simpl; [done|].
  rewrite IH. f_equal. unfold add_days. simpl. lia.
Qed.

(** ** Day names *)

Lemma day_label_rule today strftime fmt (d : date) :
  (d = today → day_label today strftime fmt d = "Today:"%string)
  ∧ (d = today + 1 → day_label today strftime fmt d = "Tomorrow:"%string)
  ∧ (d ≠ today → d ≠ today + 1 →
     day_label today strftime fmt d = strftime d fmt).
Proof.
  unfold day_label. repeat split; intros; repeat case_bool_decide; done || lia.
Qed.

Lemma construct_daynames_map today strftime (daylist : list date) fmt :
  construct_daynames today strftime daylist fmt
  = map (λ d, (d, day_label today strftime fmt d)) daylist.
Proof.
  induction daylist as [|d daylist IH]; simpl; [done|].
  rewrite IH. f_equal. unfold day_label, add_days.
  by repeat case_bool_decide.
Qed.

(** C9. [construct_daynames] yields one pair per date of [daylist], in the
    order of [daylist]; the pair of a date [d] is [d] with its label:
    ["Today:"] when [d] is today, ["Tomorrow:"] when [d] is today plus one
    day, and [d.strftime(longdateformat)] otherwise. *)
Theorem construct_daynames_labels today strftime (daylist : list date) fmt :
  construct_daynames today strftime daylist fmt
  = map (λ d, (d, day_label today strftime fmt d)) daylist
  ∧ map fst (construct_daynames today strftime daylist fmt) = daylist
  ∧ length (construct_daynames today strftime daylist fmt) = length daylist
  ∧ ∀ d : date,
      (d = today → day_label today strftime fmt d = "Today:"%string)
      ∧ (d = today + 1 → day_label today strftime fmt d = "Tomorrow:"%string)
      ∧ (d ≠ today → d ≠ today + 1 →
         day_label today strftime fmt d = strftime d fmt).
Proof.
  split; [apply construct_daynames_map|].
  rewrite construct_daynames_map. split; [|split].
  - rewrite map_map. simpl. apply map_id.
  - apply length_map.
  - apply day_label_rule.
Qed.

(** ** textwrap.wrap *)

Module TextWrapFacts.
Import TextWrap.

Lemma total_nil : total [] = 0.
Proof. done. Qed.

Lemma total_cons chunk chunks :
  total (chunk :: chunks) = Z.of_nat (length chunk) + total chunks.
Proof. unfold total. simpl. rewrite length_app. lia. Qed.


Lemma total_nonneg l : 0 ≤ total l.
Proof. unfold total. lia. Qed.

Lemma take_fitting_spec width chunks cur_line cur_len :
  ∃ taken rest,
    take_fitting width chunks cur_line cur_len
    = (rest, cur_line ++ taken, cur_len + total taken)
    ∧ chunks = taken ++ rest
    ∧ (cur_len ≤ width → cur_len + total taken ≤ width)
    ∧ match rest with
      | [] => True
      | chunk :: _ => width < cur_len + total taken + Z.of_nat (length chunk)
      end.
Proof.
  revert cur_line cur_len.
  induction chunks as [|chunk chunks IH]; intros cur_line cur_len; simpl.
  - exists [], []. rewrite app_nil_r, total_nil, Z.add_0_r. done.
  - destruct (Z.leb_spec (cur_len + Z.of_nat (length chunk)) width) as [Hfit|Hfit].
    + destruct (IH (cur_line ++ [chunk]) (cur_len + Z.of_nat (length chunk)))
        as (taken & rest & -> & -> & Hle & Hrest).
      exists (chunk :: taken), rest.
      rewrite total_cons, <-(assoc (++)), Z.add_assoc. simpl.
      split; [done|]. split; [done|]. split; [auto|]. done.
    + exists [], (chunk :: chunks).
      rewrite app_nil_r, total_nil, Z.add_0_r.
      split; [done|]. split; [done|]. split; [done|]. lia.
Qed.

Lemma rfind_hyphen_from_bound i found s :
  rfind_hyphen_from i found s ≤ Z.max found (Z.of_nat i + Z.of_nat (length s) - 1).
Proof.
  revert i found. induction s as [|c s IH]; intros i found; simpl; [lia|].
  specialize (IH (S i) (if is_hyphen c then Z.of_nat i else found)).
  destruct (is_hyphen c); lia.
Qed.

Lemma rfind_hyphen_bound chunk stop : 0 ≤ stop → rfind_hyphen chunk stop < stop.
Proof.
  intros Hstop. unfold rfind_hyphen.
  pose proof (rfind_hyphen_from_bound 0 (-1) (take (Z.to_nat stop) chunk)) as H.
  rewrite length_take in H. lia.
Qed.

Lemma long_word_end_bounds chunk space_left :
  0 ≤ space_left →
  0 ≤ long_word_end chunk space_left ≤ space_left
  ∧ (1 ≤ space_left → 1 ≤ long_word_end chunk space_left).
Proof.
  intros Hsp. unfold long_word_end.
  destruct (_ <? _); [|lia].
  pose proof (rfind_hyphen_bound chunk space_left Hsp).
  destruct (Z.ltb_spec 0 (rfind_hyphen chunk space_left)); simpl; [|lia].
  destruct (existsb _ _); lia.
Qed.

Lemma weight_app l1 l2 : weight (l1 ++ l2) = (weight l1 + weight l2)%nat.
Proof. apply sum_list_with_app. Qed.

Lemma weight_drop_leading_blank chunks lines :
  (weight (drop_leading_blank chunks lines) ≤ weight chunks)%nat.
Proof.
  destruct chunks as [|chunk rest]; simpl; [done|].
  destruct (_ && _); unfold weight; simpl; lia.
Qed.





(** One pass of the outer loop, in terms of what [take_fitting] took. *)
Lemma wrap_line_spec width chunks lines :
  1 ≤ width →
  ∃ taken rest chunks' cur_line,
    drop_leading_blank chunks lines = taken ++ rest
    ∧ total taken ≤ width
    ∧ match rest with
      | [] => chunks' = [] ∧ cur_line = taken
      | chunk :: rest' =>
          width < total taken + Z.of_nat (length chunk)
          ∧ if width <? Z.of_nat (length chunk) then
              let end_ :=
                Z.to_nat (long_word_end chunk (width - total taken)) in
              chunks' = drop end_ chunk :: rest'
              ∧ cur_line = taken ++ [take end_ chunk]
            else chunks' = rest ∧ cur_line = taken
      end
    ∧ wrap_line width chunks lines
      = (chunks',
         if is_nil (drop_trailing_blank cur_line) then lines
         else lines ++ [concat (drop_trailing_blank cur_line)]).
Proof.
  intros Hwidth. unfold wrap_line.
  destruct (take_fitting_spec width (drop_leading_blank chunks lines) [] 0)
    as (taken & rest & -> & Hsplit & Hle & Hrest).
  rewrite Z.add_0_l in *. simpl.
  destruct rest as [|chunk rest'].
  - exists taken, [], [], taken. split; [done|]. split; [lia|]. done.
  - destruct (Z.ltb_spec width (Z.of_nat (length chunk))) as [Hlong|Hshort].
    + unfold handle_long_word.
      destruct (Z.ltb_spec width 1); [lia|].
      eexists taken, (chunk :: rest'), _, _. split; [done|]. split; [lia|].
      split; [|done]. split; [done|].
      destruct (Z.ltb_spec width (Z.of_nat (length chunk))); [done|lia].
    + eexists taken, (chunk :: rest'), _, _. split; [done|]. split; [lia|].
      split; [|done]. split; [done|].
      destruct (Z.ltb_spec width (Z.of_nat (length chunk))); [lia|done].
Qed.


Lemma wrap_line_weight width chunks lines chunks' lines' :
  1 ≤ width → chunks ≠ [] →
  wrap_line width chunks lines = (chunks', lines') →
  (weight chunks' < weight chunks)%nat.
Proof.
  intros Hwidth Hne Hline.
  destruct (wrap_line_spec width chunks lines Hwidth)
    as (taken & rest & chunks2 & cur_line & Hdrop & Htaken & Hrest & Heq).
  rewrite Heq in Hline. injection Hline as <- <-.
  pose proof (weight_drop_leading_blank chunks lines) as Hw.
  rewrite Hdrop, weight_app in Hw.
  destruct rest as [|chunk rest'].
  - destruct Hrest as [-> _]. destruct chunks; [done|].
    unfold weight. simpl. lia.
  - destruct Hrest as [Hfit Hrest].
    assert (taken = [] → total taken = 0) as Hnil by (by intros ->).
    assert (taken ≠ [] → (1 ≤ weight taken)%nat) as Hcons.
    { destruct taken; [done|]. unfold weight. simpl. lia. }
    destruct (Z.ltb_spec width (Z.of_nat (length chunk))) as [Hlong|Hshort].
    + destruct Hrest as [-> _]. pose proof (total_nonneg taken).
      destruct (long_word_end_bounds chunk (width - total taken))
        as [Hb Hb1]; [lia|].
      unfold weight in *. simpl in *. rewrite length_drop.
      destruct taken as [|t taken]; [|simpl in *; lia].
      rewrite Hnil in * by done. simpl in *. lia.
    + destruct Hrest as [-> _].
      destruct taken as [|t taken]; [|specialize (Hcons ltac:(done)); lia].
      rewrite Hnil in * by done. lia.
Qed.


(** The loop ends: the weight of the chunks bounds its passes. *)
Lemma wrap_loop_terminates fuel width chunks lines :
  1 ≤ width → (weight chunks ≤ fuel)%nat →
  is_Some (wrap_loop fuel width chunks lines).
Proof.
  intros Hwidth. revert chunks lines.
  induction fuel as [|fuel IH]; intros chunks lines Hfuel.
  - destruct chunks as [|chunk chunks]; [done|]. unfold weight in Hfuel.
    simpl in Hfuel. lia.
  - destruct chunks as [|chunk chunks]; [done|].
    cbn [wrap_loop].
    destruct (wrap_line width (chunk :: chunks) lines) as [chunks' lines'] eqn:Hl.
    apply IH. apply wrap_line_weight in Hl; [lia|done..].
Qed.











(** [_wrap_chunks] raises [ValueError] exactly for a width that is not
    positive; for a positive width the loop ends and the lines are
    returned. *)
Lemma wrap_chunks_value_error width chunks :
  wrap_chunks width chunks = None ↔ width ≤ 0.
Proof.
  unfold wrap_chunks. destruct (Z.leb_spec width 0) as [Hw|Hw]; [done|].
  split; [|lia]. intros Hnone.
  destruct (wrap_loop_terminates (weight chunks) width chunks [])
    as [lines Hsome]; [lia|done|congruence].
Qed.


End TextWrapFacts.

(** ** The agenda loop *)

Section AgendaFacts.
Variable today : date.
Variable strftime : date → string → string.
Variable datefstr : string → string → string → string + date.
Variable wrap : string → Z → list string.
Variable style_bold : string → string.
Variable colored : string → string → string.

Variable collection : CalendarCollection.
Variable width : Z.
Variable show_all_days : bool.

#[local] Abbreviation event_lines := (event_lines wrap colored width).
#[local] Abbreviation agenda_day :=
  (agenda_day wrap style_bold colored collection width show_all_days).
#[local] Abbreviation agenda_loop :=
  (agenda_loop wrap style_bold colored collection width show_all_days).
#[local] Abbreviation day_block :=
  (day_block wrap style_bold colored collection width show_all_days).
#[local] Abbreviation all_day_events day := (get_allday_by_time_range collection day).
#[local] Abbreviation timed_events day :=
  (get_datetime_by_time_range collection
     (combine day time_min) (combine day time_max)).

Lemma fold_left_event_lines day (events : list Event) (column : list string) :
  fold_left (λ column event, column ++ event_lines day event) events column
  = column ++ flat_map (event_lines day) events.
Proof.
  revert column. induction events as [|e events IH]; intros column; simpl.
  - by rewrite app_nil_r.
  - by rewrite IH, <-(assoc (++)).
Qed.

Lemma day_block_skip day dayname :
  all_day_events day = [] → timed_events day = [] → show_all_days = false →
  day_block (day, dayname) = [].
Proof.
  intros Ha Ht Hs. unfold day_block, agenda_day.
  by rewrite Ha, Ht, Hs.
Qed.

Lemma day_block_shown day dayname :
  ¬ (all_day_events day = [] ∧ timed_events day = [] ∧ show_all_days = false) →
  day_block (day, dayname)
  = style_bold dayname
    :: flat_map (event_lines day)
         (all_day_events day ++ sort_by start (timed_events day)).
Proof.
  intros Hshown. unfold day_block, agenda_day.
  rewrite fold_left_event_lines.
  destruct (timed_events day) as [|e1 l1] eqn:Ht;
    destruct (all_day_events day) as [|e2 l2] eqn:Ha;
    destruct show_all_days; simpl; try done.
  by destruct Hshown.
Qed.

Lemma agenda_day_block column entry :
  agenda_day column entry = column ++ day_block entry.
Proof.
  destruct entry as [day dayname]. unfold day_block, agenda_day.
  destruct (_ && _); [by rewrite app_nil_r|].
  by rewrite !fold_left_event_lines, <-(assoc (++)).
Qed.

Lemma agenda_loop_blocks daylist column :
  agenda_loop daylist column = column ++ flat_map day_block daylist.
Proof.
  unfold agenda_loop. revert column.
  induction daylist as [|entry daylist IH]; intros column; simpl.
  - by rewrite app_nil_r.
  - by rewrite IH, agenda_day_block, <-(assoc (++)).
Qed.
End AgendaFacts.

(** ** The loop and the exception of textwrap.wrap *)

Section AgendaRaising.
Variable wrap : string → Z → list string.
Variable style_bold : string → string.
Variable colored : string → string → string.
Variable collection : CalendarCollection.
Variable width : Z.
Variable show_all_days : bool.

#[local] Abbreviation wrap_step day :=
  (λ (column : option (list string)) (event : Event),
     match column with
     | None => None
     | Some column =>
         match wrap_call wrap (compact event day) width with
         | None => None
         | Some desc =>
             Some (column ++ map (λ d, colored d (color event)) desc)
         end
     end).

Lemma wrap_call_positive (text : string) :
  0 < width → wrap_call wrap text width = Some (wrap text width).
Proof. intros Hw. unfold wrap_call. by destruct (Z.leb_spec width 0); [lia|]. Qed.

Lemma wrap_call_nonpos (text : string) :
  width ≤ 0 → wrap_call wrap text width = None.
Proof. intros Hw. unfold wrap_call. by destruct (Z.leb_spec width 0); [|lia]. Qed.

Lemma wrap_fold_None day (events : list Event) :
  fold_left (wrap_step day) events None = None.
Proof. by induction events. Qed.

Lemma wrap_fold_positive day (events : list Event) (column : list string) :
  0 < width →
  fold_left (wrap_step day) events (Some column)
  = Some (fold_left
            (λ column event, column ++ event_lines wrap colored width day event)
            events column).
Proof.
  intros Hwidth. revert column.
  induction events as [|event events IH]; intros column; [done|].
  cbn [fold_left]. rewrite wrap_call_positive by done. apply IH.
Qed.

Lemma wrap_fold_nonpos day (events : list Event) (column : list string) :
  width ≤ 0 → events ≠ [] →
  fold_left (wrap_step day) events (Some column) = None.
Proof.
  intros Hwidth Hne. destruct events as [|event events]; [done|].
  cbn [fold_left]. rewrite wrap_call_nonpos by done. apply wrap_fold_None.
Qed.

(** The body raises exactly when the width is not positive and the day has
    an event; otherwise it builds the lines of [agenda_day]. *)
Lemma agenda_day_raising_spec (column : list string) (entry : date * string) :
  agenda_day_raising wrap style_bold colored collection width show_all_days
    column entry
  = if (width <=? 0) && has_events collection entry.1 then None
    else Some (agenda_day wrap style_bold colored collection width
                 show_all_days column entry).
Proof.
  destruct entry as [day dayname]. unfold agenda_day_raising, agenda_day.
  cbn [fst]. unfold has_events.
  set (timed := get_datetime_by_time_range collection _ _).
  set (all_day := get_allday_by_time_range collection day).
  destruct (Z.leb_spec width 0) as [Hw|Hw]; cbn [andb].
  - destruct ((length timed =? 0)%nat && (length all_day =? 0)%nat) eqn:Hnone;
      cbn [negb andb].
    + apply andb_prop in Hnone as [Ht Ha].
      apply Nat.eqb_eq, nil_length_inv in Ht, Ha. rewrite Ht, Ha.
      by destruct show_all_days.
    + apply wrap_fold_nonpos; [done|]. intros Hnil.
      apply app_eq_nil in Hnil as [Ha Ht].
      apply (f_equal length) in Ht. rewrite sort_by_length in Ht.
      rewrite Ha, Ht in Hnone. done.
  - destruct (_ && _ && _); [done|]. apply wrap_fold_positive. lia.
Qed.

Lemma agenda_loop_raising_None (daylist : list (date * string)) :
  fold_left
    (λ (column : option (list string)) entry,
       match column with
       | None => None
       | Some column =>
           agenda_day_raising wrap style_bold colored collection width
             show_all_days column entry
       end)
    daylist None
  = None.
Proof. by induction daylist. Qed.

(** The loop raises exactly when the width is not positive and a day of the
    list has an event; otherwise it ends with the column of
    [agenda_loop]. *)
Lemma agenda_loop_raising_spec (daylist : list (date * string))
    (column : list string) :
  agenda_loop_raising wrap style_bold colored collection width show_all_days
    daylist column
  = if (width <=? 0) && wraps_event collection daylist then None
    else Some (agenda_loop wrap style_bold colored collection width
                 show_all_days daylist column).
Proof.
  unfold agenda_loop_raising, agenda_loop, wraps_event. revert column.
  induction daylist as [|entry daylist IH]; intros column.
  - by rewrite andb_false_r.
  - cbn [fold_left existsb]. rewrite agenda_day_raising_spec.
    destruct (width <=? 0) eqn:Hw; cbn [andb] in *.
    + destruct (has_events collection entry.1); cbn [orb].
      * apply agenda_loop_raising_None.
      * apply IH.
    + apply IH.
Qed.
End AgendaRaising.

(** ** get_agenda *)

Section AgendaClaims.
Variable today : date.
Variable strftime : date → string → string.
Variable datefstr : string → string → string → string + date.
Variable wrap : string → Z → list string.
Variable style_bold : string → string.
Variable colored : string → string → string.

#[local] Abbreviation get_agenda :=
  (get_agenda today strftime datefstr wrap style_bold colored).
#[local] Abbreviation agenda_loop := (agenda_loop wrap style_bold colored).
#[local] Abbreviation agenda_day := (agenda_day wrap style_bold colored).
#[local] Abbreviation day_block := (day_block wrap style_bold colored).
#[local] Abbreviation event_lines := (event_lines wrap colored).
#[local] Abbreviation agenda_daylist := (agenda_daylist today strftime).
#[local] Abbreviation agenda_dates := (agenda_dates today datefstr).
#[local] Abbreviation no_events := (style_bold "No events"%string).

Implicit Types (collection : CalendarCollection) (locale : Locale).
Implicit Types (dates : option (list date_arg)) (days : option Z).
Implicit Types (events : option (list Event)) (width : Z).
Implicit Types (show_all_days : bool) (ds : list date).

(** C6. [get_agenda] fails its assertion, with nothing returned or logged,
    exactly when [days] and [events] are both given (both not [None]); when
    at most one of them is given the assertion passes. *)
Theorem get_agenda_assertion collection locale dates days events width
    show_all_days :
  get_agenda collection locale dates days events width show_all_days
  = AssertionError
  ↔ days ≠ None ∧ events ≠ None.
Proof.
  unfold get_agenda.
  repeat case_bool_decide; simpl; [done| | |];
    (split; [|tauto]);
    (destruct (agenda_dates locale dates); [done|]);
    by destruct (agenda_loop_raising _ _ _ _ _ _ _ _).
Qed.

(** Past the assertion and the parsing of the dates, [get_agenda] ends
    with the [ValueError] of [textwrap.wrap] when the width is not positive
    and a day of the day list has an event; otherwise it returns the column
    of the loop, or the line "No events" when that is empty. *)
Lemma get_agenda_outcome collection locale dates days events width
    show_all_days ds :
  ¬ (days ≠ None ∧ events ≠ None) →
  agenda_dates locale dates = inr ds →
  get_agenda collection locale dates days events width show_all_days
  = if (width <=? 0)
       && wraps_event collection (agenda_daylist locale ds (days_default days))
    then ValueError
    else
      Returned
        match
          agenda_loop collection width show_all_days
            (agenda_daylist locale ds (days_default days)) []
        with
        | [] => [no_events]
        | line :: column => line :: column
        end.
Proof.
  intros Hpre Hds. unfold get_agenda. rewrite Hds.
  rewrite agenda_loop_raising_spec.
  repeat case_bool_decide; simpl; try (by destruct Hpre);
    (destruct (_ && _); [done|]); by destruct (agenda_loop _ _ _ _ _).
Qed.

Lemma get_agenda_returned collection locale dates days events width
    show_all_days ds :
  ¬ (days ≠ None ∧ events ≠ None) →
  agenda_dates locale dates = inr ds →
  (width <=? 0)
  && wraps_event collection (agenda_daylist locale ds (days_default days))
  = false →
  get_agenda collection locale dates days events width show_all_days
  = Returned
      match
        agenda_loop collection width show_all_days
          (agenda_daylist locale ds (days_default days)) []
      with
      | [] => [no_events]
      | line :: column => line :: column
      end.
Proof.
  intros Hpre Hds Hwrap.
  by rewrite (get_agenda_outcome _ _ _ _ _ _ _ ds Hpre Hds), Hwrap.
Qed.

(** No day with an event, no call of [textwrap.wrap]. *)
Lemma wraps_event_false collection locale ds (n : Z) :
  (∀ day, day ∈ expand_days ds n → has_events collection day = false) →
  wraps_event collection (agenda_daylist locale ds n) = false.
Proof.
  intros Hnone. unfold wraps_event, agenda_daylist.
  rewrite construct_daynames_map.
  induction (expand_days ds n) as [|day l IH]; [done|].
  cbn [map existsb fst]. rewrite Hnone by left. apply IH.
  intros d Hd. apply Hnone. by right.
Qed.

Lemma wraps_event_true collection locale ds (n : Z) day :
  day ∈ expand_days ds n → has_events collection day = true →
  wraps_event collection (agenda_daylist locale ds n) = true.
Proof.
  intros Hday Hev. unfold wraps_event, agenda_daylist.
  rewrite construct_daynames_map. apply existsb_exists.
  exists (day, day_label today strftime (longdateformat locale) day).
  split; [|done]. apply list_elem_of_In, list_elem_of_fmap. by exists day.
Qed.

(** A date that does not parse ends the call: the error is logged and the
    process exits with status 1. *)
Lemma get_agenda_invalid_date collection locale dates days events width
    show_all_days error :
  ¬ (days ≠ None ∧ events ≠ None) →
  agenda_dates locale dates = inl error →
  get_agenda collection locale dates days events width show_all_days
  = SystemExit [error] 1.
Proof.
  intros Hpre Hds. unfold get_agenda. rewrite Hds.
  repeat case_bool_decide; simpl; try done. by destruct Hpre.
Qed.

Lemma flat_map_nil {A B} (f : A → list B) (l : list A) :
  (∀ a, a ∈ l → f a = []) → flat_map f l = [].
Proof.
  induction l as [|a l IH]; intros Hf; simpl; [done|].
  rewrite (Hf a), IH; [done| |left]. intros. apply Hf. by right.
Qed.

(** C1, amended. When [days] and [events] are not both given and the
    dates resolve, [get_agenda] returns a column that is not empty, provided
    the width is positive or no day of the range has an event; when the
    loop emitted no line (no header, no event line, for any day), the
    column is the one bold line "No events", as it is, in particular, when
    the collection has no event on any day of the range and [show_all_days]
    is false. With a width that is not positive and an event on a day of
    the range, the [ValueError] of [textwrap.wrap] ends the call instead. *)
Theorem get_agenda_nonempty collection locale dates days events width
    show_all_days ds :
  ¬ (days ≠ None ∧ events ≠ None) →
  agenda_dates locale dates = inr ds →
  ((1 ≤ width
    ∨ ∀ day, day ∈ expand_days ds (days_default days) →
        has_events collection day = false) →
   ∃ column,
     get_agenda collection locale dates days events width show_all_days
     = Returned column
     ∧ column ≠ []
     ∧ (agenda_loop collection width show_all_days
          (agenda_daylist locale ds (days_default days)) [] = [] →
        column = [no_events])
     ∧ (show_all_days = false →
        (∀ day, day ∈ expand_days ds (days_default days) →
           get_allday_by_time_range collection day = []
           ∧ get_datetime_by_time_range collection
               (combine day time_min) (combine day time_max) = []) →
        column = [no_events]))
  ∧ (width ≤ 0 →
     (∃ day, day ∈ expand_days ds (days_default days)
             ∧ has_events collection day = true) →
     get_agenda collection locale dates days events width show_all_days
     = ValueError).
Proof.
  intros Hpre Hds. split.
  - intros Hwrap.
    assert ((width <=? 0)
            && wraps_event collection
                 (agenda_daylist locale ds (days_default days)) = false)
      as Hquiet.
    { destruct Hwrap as [Hw|Hnone].
      - by destruct (Z.leb_spec width 0); [lia|].
      - by rewrite wraps_event_false, andb_false_r. }
    eexists. split; [by apply get_agenda_returned|].
    set (emitted := agenda_loop _ _ _ _ _).
    assert (emitted = [] →
            match emitted with [] => [no_events] | l :: c => l :: c end
            = [no_events]) as Hnone by (by intros ->).
    split; [by destruct emitted|]. split; [done|].
    intros Hshow Hempty. apply Hnone. subst emitted.
    rewrite agenda_loop_blocks. simpl. apply flat_map_nil.
    intros [day dayname] Hin. unfold agenda_daylist in Hin.
    rewrite construct_daynames_map in Hin.
    apply list_elem_of_fmap in Hin as (d & [= -> ->] & Hd).
    destruct (Hempty d Hd). by apply day_block_skip.
  - intros Hw (day & Hday & Hev).
    rewrite (get_agenda_outcome _ _ _ _ _ _ _ ds Hpre Hds).
    rewrite (wraps_event_true _ _ _ _ day Hday Hev).
    by destruct (Z.leb_spec width 0); [|lia].
Qed.

(** C10. With [days=None], the outcome of [get_agenda] does not depend on
    the [events] argument: the loop assigns [events] before reading it. *)
Theorem get_agenda_events_unread collection locale dates events1 events2 width
    show_all_days :
  get_agenda collection locale dates None events1 width show_all_days
  = get_agenda collection locale dates None events2 width show_all_days.
Proof.
  unfold get_agenda.
  rewrite (bool_decide_eq_false_2 (None ≠ None)) by (by intros []).
  reflexivity.
Qed.


End AgendaClaims.

Example get_agenda_cli_test :
  get_agenda Sample.today Sample.strftime Sample.datefstr Sample.wrap
    Sample.style_bold Sample.colored Sample.collection Sample.de_locale
    (Some [DateStr "09.04.2014"]) None None 45 false
  = Returned ["09.04.2014"; "09:30-10:30: An Event"]%string.
Proof. reflexivity. Qed.

Example get_agenda_empty_calendar :
  get_agenda Sample.today Sample.strftime Sample.datefstr Sample.wrap
    Sample.style_bold Sample.colored Sample.collection Sample.de_locale
    None None None 45 false
  = Returned ["No events"%string].
Proof. reflexivity. Qed.

Example get_agenda_busy_day :
  get_agenda Sample.today Sample.strftime Sample.datefstr Sample.wrap
    Sample.style_bold Sample.colored Sample.busy_collection Sample.de_locale
    (Some [DateObj Sample.apr_9]) (Some 1) None 45 false
  = Returned ["09.04.2014"; "Holiday"; "09:00-09:15: Standup";
              "09:00-09:30: Coffee"; "12:00-13:00: Lunch"]%string.
Proof. reflexivity. Qed.

Lemma get_agenda_nonempty_witness :
  ¬ (@None Z ≠ None ∧ @None (list Event) ≠ None)
  ∧ ∃ column,
      get_agenda Sample.today Sample.strftime Sample.datefstr Sample.wrap
        Sample.style_bold Sample.colored Sample.collection Sample.de_locale
        (Some [DateStr "09.04.2014"]) None None 45 false
      = Returned column
      ∧ column ≠ [].
Proof.
  assert (¬ (@None Z ≠ None ∧ @None (list Event) ≠ None)) as Hpre
    by (intros [H _]; by apply H).
  split; [exact Hpre|].
  destruct (get_agenda_nonempty Sample.today Sample.strftime Sample.datefstr
              Sample.wrap Sample.style_bold Sample.colored Sample.collection
              Sample.de_locale (Some [DateStr "09.04.2014"]) None None 45
              false [Sample.apr_9] Hpre eq_refl)
    as [Hreturns _].
  assert (1 ≤ 45) as Hwidth by lia.
  destruct (Hreturns (or_introl Hwidth)) as (column & Hret & Hne & _).
  by exists column.
Defined.

(** C1, as stated, fails: at width 0, with the all-day event
    "Team meeting " on the one day asked for, [get_agenda] does not return;
    [textwrap.wrap] raises [ValueError] on line 118 and nothing catches
    it. *)
Lemma get_agenda_nonempty_counterexample :
  get_agenda Sample.today Sample.strftime Sample.datefstr Sample.textwrap
    Sample.style_bold Sample.colored Sample.meeting_collection
    Sample.de_locale (Some [DateObj Sample.apr_9]) (Some 1) None 0 false
  = ValueError
  ∧ TextWrap.wrap Sample.split_chunks
      (compact Sample.meeting Sample.apr_9) 0 = None.
Proof. split; reflexivity. Qed.


(** ** NewFromString *)

Section NewFromStringFacts.
Variable VEvent : Type.
Variable construct_event :
  list string → option string → option string → Locale →
  list action * option VEvent.
Variable make_Event : VEvent → string → Locale → Event.
Variable encode : string → string → string.

#[local] Abbreviation NewFromString :=
  (NewFromString VEvent construct_event make_Event encode).


(** Writing to a read-only calendar: the named message is logged, then the
    exit with status 1; nothing is echoed. *)
Lemma NewFromString_read_only collection conf date_list location repeat
    parsing vevent :
  construct_event date_list location repeat (locale conf)
  = (parsing, Some vevent) →
  new collection
    (make_Event vevent (default_calendar_name collection) (locale conf))
  = false →
  NewFromString collection conf date_list location repeat
  = parsing
    ++ [Log (read_only_message (default_calendar_name collection)); Exit 1].
Proof.
  intros Hparse Hnew. unfold NewFromString.
  by rewrite Hparse, Hnew.
Qed.
End NewFromStringFacts.

(** The run when the parser raises [FatalError] and has logged nothing: the
    exit alone, no message. *)
Lemma NewFromString_exit_only :
  NewFromString Event Sample.silent_parser Sample.make_Event Sample.encode
    (Sample.calendars true) Sample.conf ["tomorrow"; "noon"; "Lunch"]%string
    None None
  = [Exit 1]
  ∧ ¬ ∃ message,
        Log message
        ∈ NewFromString Event Sample.silent_parser Sample.make_Event
            Sample.encode (Sample.calendars true) Sample.conf
            ["tomorrow"; "noon"; "Lunch"]%string None None.
Proof.
  split; [reflexivity|]. intros (message & Hin).
  apply list_elem_of_singleton in Hin. discriminate.
Qed.


(** ** Word-wrapping of the event lines *)




(** * Further properties *)

(** ** Sorting what is sorted *)

Lemma sort_by_sorted_id {A} (key : A → Z) (l : list A) :
  StronglySorted (key_le key) l → sort_by key l = l.
Proof. intros Hl. symmetry. by apply sort_by_unique. Qed.

Lemma range_sorted (n : Z) : StronglySorted Z.le (range n).
Proof.
  unfold range. generalize 0%nat as i.
  induction (Z.to_nat n) as [|m IH]; intros i; simpl; [constructor|].
  constructor; [apply IH|]. apply Forall_forall. intros k Hk.
  apply list_elem_of_fmap in Hk as (j & -> & Hj).
  apply list_elem_of_In, in_seq in Hj. lia.
Qed.

Lemma consecutive_days_sorted (d : date) (n : Z) :
  StronglySorted (key_le id) (consecutive_days d n).
Proof.
  unfold consecutive_days.
  induction (range_sorted n) as [|k l Hl IH Hk]; simpl; [constructor|].
  constructor; [done|]. apply Forall_forall. intros x Hx.
  apply list_elem_of_fmap in Hx as (j & -> & Hj).
  rewrite Forall_forall in Hk. specialize (Hk j Hj). unfold key_le, id. lia.
Qed.

Lemma expand_days_one_date (d : date) (n : Z) :
  expand_days [d] n = consecutive_days d n.
Proof.
  unfold expand_days.
  assert (flat_map (λ one, map (λ date, add_days date one) [d]) (range n)
          = consecutive_days d n) as ->.
  { unfold consecutive_days. induction (range n) as [|k l IH]; [done|].
    simpl in *. by rewrite IH. }
  apply sort_by_sorted_id, consecutive_days_sorted.
Qed.

(** X8. One start date expands to that day and the days after it, in
    order; nothing is expanded for a day count that is not positive. *)
Theorem expand_days_single (d : date) (n : Z) :
  expand_days [d] n = consecutive_days d n
  ∧ length (expand_days [d] n) = Z.to_nat n
  ∧ ∀ i : nat, (i < Z.to_nat n)%nat →
      expand_days [d] n !! i = Some (d + Z.of_nat i).
Proof.
  rewrite expand_days_one_date. unfold consecutive_days, range.
  split; [done|]. split; [by rewrite !length_map, length_seq|].
  intros i Hi. rewrite !list_lookup_fmap, lookup_seq_lt by done. done.
Qed.

Lemma expand_days_nonpos (dates : list date) (n : Z) :
  n ≤ 0 → expand_days dates n = [].
Proof. intros Hn. unfold expand_days. by rewrite range_nonpos. Qed.

Lemma expand_days_proper (ds1 ds2 : list date) (n : Z) :
  ds1 ≡ₚ ds2 → expand_days ds1 n = expand_days ds2 n.
Proof.
  intros Hp. unfold expand_days. apply sort_by_id_Permutation.
  induction (range n) as [|k l IH]; simpl; [done|].
  by rewrite IH, Hp.
Qed.

(** ** get_agenda: the dates *)

Section AgendaDates.
Variable today : date.
Variable strftime : date → string → string.
Variable datefstr : string → string → string → string + date.
Variable wrap : string → Z → list string.
Variable style_bold : string → string.
Variable colored : string → string → string.

#[local] Abbreviation get_agenda :=
  (get_agenda today strftime datefstr wrap style_bold colored).
#[local] Abbreviation agenda_loop := (agenda_loop wrap style_bold colored).
#[local] Abbreviation day_block := (day_block wrap style_bold colored).
#[local] Abbreviation agenda_daylist := (agenda_daylist today strftime).
#[local] Abbreviation agenda_dates := (agenda_dates today datefstr).
#[local] Abbreviation resolve_dates := (resolve_dates datefstr).
#[local] Abbreviation no_events := (style_bold "No events"%string).

Implicit Types (collection : CalendarCollection) (locale : Locale).
Implicit Types (dates : option (list date_arg)) (days : option Z).
Implicit Types (events : option (list Event)) (width : Z).
Implicit Types (show_all_days : bool) (ds : list date).

Lemma resolve_dates_app locale (l1 l2 : list date_arg) :
  resolve_dates locale (l1 ++ l2)
  = match resolve_dates locale l1 with
    | inl error => inl error
    | inr ds1 =>
        match resolve_dates locale l2 with
        | inl error => inl error
        | inr ds2 => inr (ds1 ++ ds2)
        end
    end.
Proof.
  induction l1 as [|a l1 IH]; simpl.
  - by destruct (resolve_dates locale l2).
  - rewrite IH.
    destruct a as [s|d]; [destruct (datefstr s _ _) as [error|d]; [done|]|];
      destruct (resolve_dates locale l1) as [error|ds1]; try done;
      by destruct (resolve_dates locale l2).
Qed.

(** The parsing fails with the message of the first string, from the left,
    that the parser rejects. *)
Lemma resolve_dates_inl locale (l : list date_arg) error :
  resolve_dates locale l = inl error
  ↔ ∃ before s after ds,
      l = before ++ DateStr s :: after
      ∧ resolve_dates locale before = inr ds
      ∧ datefstr s (dateformat locale) (longdateformat locale) = inl error.
Proof.
  split.
  - induction l as [|a l IH]; simpl; [done|].
    destruct a as [s|d].
    + destruct (datefstr s _ _) as [e|d] eqn:Hs.
      * intros [= ->]. by exists [], s, l, [].
      * destruct (resolve_dates locale l) as [e|ds'] eqn:Hl; [|done].
        intros [= ->]. destruct (IH eq_refl) as (before & s' & after & ds & -> & Hb & He).
        exists (DateStr s :: before), s', after, (d :: ds).
        split; [done|]. split; [|done]. simpl. by rewrite Hs, Hb.
    + destruct (resolve_dates locale l) as [e|ds'] eqn:Hl; [|done].
      intros [= ->]. destruct (IH eq_refl) as (before & s' & after & ds & -> & Hb & He).
      exists (DateObj d :: before), s', after, (d :: ds).
      split; [done|]. split; [|done]. simpl. by rewrite Hb.
  - intros (before & s & after & ds & -> & Hb & He).
    rewrite resolve_dates_app, Hb. simpl. by rewrite He.
Qed.

(** X1. [get_agenda] exits exactly when its assertion holds and one of the
    date strings does not parse; it has then logged the parser's message
    for the first such string, and nothing else, and the status is 1. *)
Theorem get_agenda_exit_iff collection locale dates days events width
    show_all_days logged status :
  get_agenda collection locale dates days events width show_all_days
  = SystemExit logged status
  ↔ ¬ (days ≠ None ∧ events ≠ None)
    ∧ status = 1
    ∧ ∃ before s after ds error,
        dates = Some (before ++ DateStr s :: after)
        ∧ resolve_dates locale before = inr ds
        ∧ datefstr s (dateformat locale) (longdateformat locale) = inl error
        ∧ logged = [error].
Proof.
  split.
  - intros Hexit.
    assert (¬ (days ≠ None ∧ events ≠ None)) as Hpre.
    { intros [Hdays Hevents]. unfold get_agenda in Hexit.
      by rewrite !bool_decide_eq_true_2 in Hexit. }
    split; [done|].
    destruct (agenda_dates locale dates) as [error|ds] eqn:Hds.
    + rewrite (get_agenda_invalid_date _ _ _ _ _ _ _ _ _ _ _ _ _ error Hpre Hds)
        in Hexit.
      injection Hexit as <- <-. split; [done|].
      destruct dates as [[|a l]|]; try done.
      change (resolve_dates locale (a :: l) = inl error) in Hds.
      apply resolve_dates_inl in Hds as (before & s & after & ds & Hl & Hb & He).
      exists before, s, after, ds, error. by rewrite Hl.
    + rewrite (get_agenda_outcome _ _ _ _ _ _ _ _ _ _ _ _ _ ds Hpre Hds)
        in Hexit.
      by destruct (_ && _).
  - intros (Hpre & -> & before & s & after & ds & error & -> & Hb & He & ->).
    apply get_agenda_invalid_date; [done|].
    assert (resolve_dates locale (before ++ DateStr s :: after) = inl error)
      as Hl by (apply resolve_dates_inl; by exists before, s, after, ds).
    by destruct before.
Qed.
Lemma resolve_dates_cons locale (a : date_arg) (l : list date_arg) ds :
  resolve_dates locale (a :: l) = inr ds
  ↔ ∃ d ds',
      match a with
      | DateObj d => inr d
      | DateStr s => datefstr s (dateformat locale) (longdateformat locale)
      end = inr d
      ∧ resolve_dates locale l = inr ds' ∧ ds = d :: ds'.
Proof.
  simpl. destruct (match a with DateObj _ => _ | DateStr _ => _ end)
    as [error|d]; [split; [done|by intros (? & ? & ? & _)]|].
  destruct (resolve_dates locale l) as [error|ds'].
  - split; [done|by intros (? & ? & _ & ? & _)].
  - split; [intros [= <-]; by exists d, ds'|].
    by intros (? & ? & [= <-] & [= <-] & ->).
Qed.

Lemma resolve_dates_Permutation locale (l1 l2 : list date_arg) ds1 :
  l1 ≡ₚ l2 → resolve_dates locale l1 = inr ds1 →
  ∃ ds2, resolve_dates locale l2 = inr ds2 ∧ ds1 ≡ₚ ds2.
Proof.
  intros Hp. revert ds1.
  induction Hp as [|a l1 l2 Hp IH|a b l|l1 l2 l3 Hp1 IH1 Hp2 IH2]; intros ds1.
  - intros [= <-]. by exists [].
  - intros (d & ds' & Ha & Hl & ->)%resolve_dates_cons.
    destruct (IH _ Hl) as (ds2 & Hl2 & Hds).
    exists (d :: ds2). split; [|by constructor].
    apply resolve_dates_cons. by exists d, ds2.
  - intros (d1 & ds' & Ha & (d2 & ds & Hb & Hl & ->)%resolve_dates_cons & ->)
      %resolve_dates_cons.
    exists (d2 :: d1 :: ds). split; [|apply perm_swap].
    apply resolve_dates_cons. exists d2, (d1 :: ds). split; [done|].
    split; [|done]. apply resolve_dates_cons. by exists d1, ds.
  - intros Hl1. destruct (IH1 _ Hl1) as (ds2 & Hl2 & Hds12).
    destruct (IH2 _ Hl2) as (ds3 & Hl3 & Hds23).
    exists ds3. split; [done|by etrans].
Qed.

(** X5. The order in which the dates are given does not matter: for dates
    that all resolve, a permutation of the [dates] argument gives the same
    outcome. *)
Theorem get_agenda_dates_order collection locale (l1 l2 : list date_arg) days
    events width show_all_days ds :
  l1 ≡ₚ l2 → resolve_dates locale l1 = inr ds →
  get_agenda collection locale (Some l1) days events width show_all_days
  = get_agenda collection locale (Some l2) days events width show_all_days.
Proof.
  intros Hp Hl1.
  destruct (resolve_dates_Permutation locale l1 l2 ds Hp Hl1)
    as (ds2 & Hl2 & Hds).
  destruct l1 as [|a l1].
  { apply Permutation_nil_l in Hp. by subst. }
  destruct l2 as [|b l2].
  { by apply Permutation_nil_r in Hp. }
  unfold get_agenda. destruct (_ && _); [done|].
  change (agenda_dates locale (Some (a :: l1)))
    with (resolve_dates locale (a :: l1)).
  change (agenda_dates locale (Some (b :: l2)))
    with (resolve_dates locale (b :: l2)).
  rewrite Hl1, Hl2. unfold agenda_daylist.
  by rewrite (expand_days_proper ds ds2 _ Hds).
Qed.

Lemma agenda_daylist_default locale :
  agenda_daylist locale [today] 2
  = [(today, "Today:"%string); (today + 1, "Tomorrow:"%string)].
Proof.
  unfold agenda_daylist.
  rewrite expand_days_one_date.
  unfold consecutive_days. change (range 2) with [0; 1]. simpl.
  rewrite Z.add_0_r. unfold add_days.
  rewrite bool_decide_eq_true_2 by done.
  rewrite (bool_decide_eq_false_2 (today + 1 = today)) by lia.
  by rewrite bool_decide_eq_true_2.
Qed.

(** X2. Called without dates (with [None] or with an empty list) and
    without a day count, [get_agenda] shows two days, today and tomorrow,
    under the headers "Today:" and "Tomorrow:", whatever the locale and
    the [events] argument; the line "No events" when neither day shows
    anything. When the width is not positive and one of the two days has
    an event, the [ValueError] of [textwrap.wrap] ends the call instead. *)
Theorem get_agenda_defaults collection locale events width show_all_days :
  let shown :=
    day_block collection width show_all_days (today, "Today:"%string)
    ++ day_block collection width show_all_days
         (today + 1, "Tomorrow:"%string) in
  let column :=
    match shown with [] => [no_events] | line :: rest => line :: rest end in
  let outcome :=
    if (width <=? 0)
       && (has_events collection today || has_events collection (today + 1))
    then ValueError
    else Returned column in
  get_agenda collection locale None None events width show_all_days = outcome
  ∧ get_agenda collection locale (Some []) None events width show_all_days
    = outcome.
Proof.
  intros shown column outcome.
  assert (¬ (@None Z ≠ None ∧ events ≠ None)) as Hpre by (by intros [[] _]).
  assert (agenda_loop collection width show_all_days
            (agenda_daylist locale [today] (days_default None)) []
          = shown) as Hloop.
  { change (days_default None) with 2.
    rewrite agenda_daylist_default, agenda_loop_blocks. simpl.
    by rewrite app_nil_r. }
  assert (wraps_event collection
            (agenda_daylist locale [today] (days_default None))
          = has_events collection today || has_events collection (today + 1))
    as Hwraps.
  { change (days_default None) with 2. rewrite agenda_daylist_default.
    unfold wraps_event. cbn [existsb fst]. by rewrite orb_false_r. }
  split.
  - rewrite (get_agenda_outcome _ _ _ _ _ _ _ _ None None _ _ _ [today] Hpre)
      by done.
    by rewrite Hloop, Hwraps.
  - rewrite (get_agenda_outcome _ _ _ _ _ _ _ _ (Some []) None _ _ _ [today]
               Hpre) by done.
    by rewrite Hloop, Hwraps.
Qed.

(** X3. With a day count that is not positive no day is shown: whatever
    the dates, the collection and [show_all_days], the column is the line
    "No events". *)
Theorem get_agenda_no_days collection locale dates (n : Z) width
    show_all_days ds :
  n ≤ 0 → agenda_dates locale dates = inr ds →
  get_agenda collection locale dates (Some n) None width show_all_days
  = Returned [no_events].
Proof.
  intros Hn Hds.
  rewrite (get_agenda_returned _ _ _ _ _ _ _ _ dates (Some n) None _ _ ds).
  - unfold agenda_daylist. simpl. by rewrite expand_days_nonpos.
  - by intros [_ []].
  - done.
  - unfold agenda_daylist. simpl. rewrite expand_days_nonpos by done.
    apply andb_false_r.
Qed.
End AgendaDates.

Lemma resolve_dates_objects (l : list date_arg) :
  Forall (λ a, is_date a = true) l →
  ∃ ds, ∀ datefstr locale, resolve_dates datefstr locale l = inr ds.
Proof.
  induction 1 as [|a l Ha _ (ds & IH)]; [by exists []|].
  destruct a as [s|d]; [done|]. exists (d :: ds). intros datefstr locale.
  simpl. by rewrite IH.
Qed.

(** X4. Entries of [dates] that are dates already are not parsed: when all
    of them are, [get_agenda] cannot exit, and how it ends is the same for
    every date parser; with a positive width it returns. *)
Theorem get_agenda_date_objects today strftime wrap style_bold colored
    collection locale (l : list date_arg) days events width show_all_days :
  Forall (λ a, is_date a = true) l →
  ¬ (days ≠ None ∧ events ≠ None) →
  ∃ outcome,
    (∀ datefstr,
       get_agenda today strftime datefstr wrap style_bold colored collection
         locale (Some l) days events width show_all_days
       = outcome)
    ∧ (∀ logged status, outcome ≠ SystemExit logged status)
    ∧ (1 ≤ width → ∃ column, outcome = Returned column).
Proof.
  intros Hl Hpre. destruct (resolve_dates_objects l Hl) as (ds & Hds).
  set (ds' := match l with [] => [today] | _ => ds end).
  assert (∀ datefstr,
    agenda_dates today datefstr locale (Some l) = inr ds') as Hdates.
  { intros datefstr. subst ds'. destruct l; [done|]. apply Hds. }
  eexists. split; [|split].
  - intros datefstr.
    apply (get_agenda_outcome _ _ _ _ _ _ _ _ _ _ _ _ _ ds' Hpre
             (Hdates datefstr)).
  - intros logged status. by destruct (_ && _).
  - intros Hwidth. destruct (Z.leb_spec width 0); [lia|]. by eexists.
Qed.

(** ** get_agenda: the lines *)

Section AgendaLines.
Variable today : date.
Variable strftime : date → string → string.
Variable datefstr : string → string → string → string + date.
Variable wrap : string → Z → list string.
Variable style_bold : string → string.
Variable colored : string → string → string.

#[local] Abbreviation get_agenda :=
  (get_agenda today strftime datefstr wrap style_bold colored).
#[local] Abbreviation agenda_loop := (agenda_loop wrap style_bold colored).
#[local] Abbreviation day_block := (day_block wrap style_bold colored).
#[local] Abbreviation event_lines := (event_lines wrap colored).
#[local] Abbreviation agenda_daylist := (agenda_daylist today strftime).
#[local] Abbreviation agenda_dates := (agenda_dates today datefstr).
#[local] Abbreviation no_events := (style_bold "No events"%string).
#[local] Abbreviation all_day_events collection day :=
  (get_allday_by_time_range collection day).
#[local] Abbreviation timed_events collection day :=
  (get_datetime_by_time_range collection
     (combine day time_min) (combine day time_max)).

Implicit Types (collection : CalendarCollection) (locale : Locale).
Implicit Types (dates : option (list date_arg)) (days : option Z).
Implicit Types (events : option (list Event)) (width : Z).
Implicit Types (show_all_days : bool) (ds : list date).

Lemma has_events_false collection day :
  has_events collection day = false
  ↔ all_day_events collection day = [] ∧ timed_events collection day = [].
Proof.
  unfold has_events.
  destruct (timed_events collection day), (all_day_events collection day);
    simpl; (split; [done|]); try done; by intros [? ?].
Qed.

Lemma day_block_cases collection width show_all_days day dayname :
  day_block collection width show_all_days (day, dayname)
  = if has_events collection day || show_all_days
    then style_bold dayname
         :: flat_map (event_lines width day)
              (all_day_events collection day
               ++ sort_by start (timed_events collection day))
    else [].
Proof.
  destruct (has_events collection day) eqn:Hev; simpl.
  - apply day_block_shown. intros (Ha & Ht & _).
    assert (has_events collection day = false) by (by apply has_events_false).
    congruence.
  - apply has_events_false in Hev as [Ha Ht]. destruct show_all_days.
    + apply day_block_shown. by intros (_ & _ & ?).
    + by apply day_block_skip.
Qed.


Lemma elem_of_day_block collection width show_all_days day dayname line :
  line ∈ day_block collection width show_all_days (day, dayname)
  ↔ (has_events collection day || show_all_days = true)
    ∧ (line = style_bold dayname
       ∨ ∃ event segment,
           event ∈ all_day_events collection day
                   ++ timed_events collection day
           ∧ segment ∈ wrap (compact event day) width
           ∧ line = colored segment (color event)).
Proof.
  rewrite day_block_cases.
  destruct (has_events collection day || show_all_days);
    [|split; [by intros ?%elem_of_nil|by intros [? _]]].
  rewrite elem_of_cons, list_elem_of_In, in_flat_map.
  split.
  - intros [->|(event & Hev & Hline)]; (split; [done|]); [by left|right].
    apply list_elem_of_In in Hev, Hline.
    rewrite sort_by_Permutation in Hev.
    apply list_elem_of_fmap in Hline as (segment & -> & Hseg).
    by exists event, segment.
  - intros [_ [->|(event & segment & Hev & Hseg & ->)]]; [by left|right].
    exists event. split.
    + apply list_elem_of_In. by rewrite sort_by_Permutation.
    + apply list_elem_of_In, list_elem_of_fmap. by exists segment.
Qed.

(** X7. Every line [get_agenda] returns is the line "No events", the
    header of a day of the day list, or a coloured segment of the wrapped
    description of an event the collection returned for such a day. And
    no event is left out: for every event of a listed day the header of
    the day and all the segments of the event are in the column. *)
Theorem get_agenda_lines collection locale dates days events width
    show_all_days column :
  get_agenda collection locale dates days events width show_all_days
  = Returned column →
  ∃ ds,
    agenda_dates locale dates = inr ds
    ∧ (∀ line, line ∈ column →
         line = no_events
         ∨ ∃ day dayname,
             (day, dayname) ∈ agenda_daylist locale ds (days_default days)
             ∧ (line = style_bold dayname
                ∨ ∃ event segment,
                    event ∈ all_day_events collection day
                            ++ timed_events collection day
                    ∧ segment ∈ wrap (compact event day) width
                    ∧ line = colored segment (color event)))
    ∧ (∀ day dayname event,
         (day, dayname) ∈ agenda_daylist locale ds (days_default days) →
         event ∈ all_day_events collection day
                 ++ timed_events collection day →
         style_bold dayname ∈ column
         ∧ ∀ segment, segment ∈ wrap (compact event day) width →
             colored segment (color event) ∈ column).
Proof.
  intros Hret.
  assert (¬ (days ≠ None ∧ events ≠ None)) as Hpre.
  { intros [Hdays Hevents]. unfold get_agenda in Hret.
    by rewrite !bool_decide_eq_true_2 in Hret. }
  destruct (agenda_dates locale dates) as [error|ds] eqn:Hds.
  { by rewrite (get_agenda_invalid_date _ _ _ _ _ _ _ _ _ _ _ _ _ error Hpre
                  Hds) in Hret. }
  rewrite (get_agenda_outcome _ _ _ _ _ _ _ _ _ _ _ _ _ ds Hpre Hds) in Hret.
  destruct (_ && _); [done|].
  injection Hret as <-. exists ds. split; [done|].
  rewrite agenda_loop_blocks, app_nil_l.
  set (daylist := agenda_daylist locale ds (days_default days)).
  assert (∀ line,
    line ∈ flat_map (day_block collection width show_all_days) daylist
    ↔ ∃ day dayname, (day, dayname) ∈ daylist
        ∧ line ∈ day_block collection width show_all_days (day, dayname))
    as Hflat.
  { intros line. rewrite list_elem_of_In, in_flat_map. split.
    - intros ([day dayname] & Hin & Hline). exists day, dayname.
      by rewrite !list_elem_of_In.
    - intros (day & dayname & Hin & Hline). exists (day, dayname).
      by rewrite <-!list_elem_of_In. }
  split.
  - intros line Hline.
    destruct (flat_map _ daylist) as [|l0 rest] eqn:Hloop.
    { left. by apply list_elem_of_singleton in Hline. }
    right. apply Hflat in Hline as (day & dayname & Hin & Hline).
    apply elem_of_day_block in Hline as [_ Hline]. by exists day, dayname.
  - intros day dayname event Hin Hev.
    assert (has_events collection day = true) as Hhas.
    { destruct (has_events collection day) eqn:Hhas; [done|].
      apply has_events_false in Hhas as [Ha Ht]. rewrite Ha, Ht in Hev.
      by apply elem_of_nil in Hev. }
    assert (∀ line,
      line ∈ day_block collection width show_all_days (day, dayname) →
      line ∈ match flat_map (day_block collection width show_all_days) daylist
             with [] => [no_events] | l0 :: rest => l0 :: rest end) as Hsub.
    { intros line Hline.
      assert (line ∈ flat_map (day_block collection width show_all_days)
                       daylist) as Hl by (apply Hflat; by exists day, dayname).
      by destruct (flat_map _ daylist); [apply elem_of_nil in Hl|]. }
    split.
    + apply Hsub, elem_of_day_block. rewrite Hhas. split; [done|by left].
    + intros segment Hseg. apply Hsub, elem_of_day_block. rewrite Hhas.
      split; [done|]. right. by exists event, segment.
Qed.

End AgendaLines.

Lemma get_agenda_date_objects_witness :
  Forall (λ a, is_date a = true) [DateObj Sample.apr_9]
  ∧ ∃ outcome, ∀ datefstr,
      get_agenda Sample.today Sample.strftime datefstr Sample.wrap
        Sample.style_bold Sample.colored Sample.collection Sample.de_locale
        (Some [DateObj Sample.apr_9]) None None 45 false
      = outcome.
Proof.
  assert (Forall (λ a, is_date a = true) [DateObj Sample.apr_9]) as Hl
    by (by constructor).
  assert (¬ (@None Z ≠ None ∧ @None (list Event) ≠ None)) as Hpre
    by (intros [H _]; by apply H).
  split; [exact Hl|].
  destruct (get_agenda_date_objects Sample.today Sample.strftime Sample.wrap
              Sample.style_bold Sample.colored Sample.collection
              Sample.de_locale [DateObj Sample.apr_9] None None 45 false Hl
              Hpre)
    as (outcome & Hsame & _).
  by exists outcome.
Defined.

Lemma get_agenda_dates_order_witness :
  [DateStr "09.04.2014"; DateObj 735340] ≡ₚ
    [DateObj 735340; DateStr "09.04.2014"]
  ∧ get_agenda Sample.today Sample.strftime Sample.datefstr Sample.wrap
      Sample.style_bold Sample.colored Sample.collection Sample.de_locale
      (Some [DateStr "09.04.2014"; DateObj 735340]) None None 45 false
    = get_agenda Sample.today Sample.strftime Sample.datefstr Sample.wrap
        Sample.style_bold Sample.colored Sample.collection Sample.de_locale
        (Some [DateObj 735340; DateStr "09.04.2014"]) None None 45 false.
Proof.
  assert ([DateStr "09.04.2014"; DateObj 735340] ≡ₚ
            [DateObj 735340; DateStr "09.04.2014"]) as Hp by apply perm_swap.
  split; [exact Hp|].
  apply (get_agenda_dates_order Sample.today Sample.strftime Sample.datefstr
           Sample.wrap Sample.style_bold Sample.colored Sample.collection
           Sample.de_locale _ _ None None 45 false [Sample.apr_9; 735340] Hp).
  reflexivity.
Defined.

Lemma get_agenda_no_days_witness :
  0 ≤ 0
  ∧ get_agenda Sample.today Sample.strftime Sample.datefstr Sample.wrap
      Sample.style_bold Sample.colored Sample.busy_collection
      Sample.de_locale (Some [DateObj Sample.apr_9]) (Some 0) None 45 true
    = Returned ["No events"%string].
Proof.
  split; [done|].
  apply (get_agenda_no_days Sample.today Sample.strftime Sample.datefstr
           Sample.wrap Sample.style_bold Sample.colored Sample.busy_collection
           Sample.de_locale (Some [DateObj Sample.apr_9]) 0 45 true
           [Sample.apr_9]); [done|reflexivity].
Defined.

Lemma get_agenda_lines_witness :
  get_agenda Sample.today Sample.strftime Sample.datefstr Sample.wrap
    Sample.style_bold Sample.colored Sample.busy_collection Sample.de_locale
    (Some [DateObj Sample.apr_9]) (Some 1) None 45 false
  = Returned ["09.04.2014"; "Holiday"; "09:00-09:15: Standup";
              "09:00-09:30: Coffee"; "12:00-13:00: Lunch"]%string
  ∧ ∃ ds,
      agenda_dates Sample.today Sample.datefstr Sample.de_locale
        (Some [DateObj Sample.apr_9]) = inr ds.
Proof.
  assert (get_agenda Sample.today Sample.strftime Sample.datefstr Sample.wrap
            Sample.style_bold Sample.colored Sample.busy_collection
            Sample.de_locale (Some [DateObj Sample.apr_9]) (Some 1) None 45
            false
          = Returned ["09.04.2014"; "Holiday"; "09:00-09:15: Standup";
                      "09:00-09:30: Coffee"; "12:00-13:00: Lunch"]%string)
    as Hret by reflexivity.
  split; [exact Hret|].
  destruct (get_agenda_lines Sample.today Sample.strftime Sample.datefstr
              Sample.wrap Sample.style_bold Sample.colored
              Sample.busy_collection Sample.de_locale _ _ _ _ _ _ Hret)
    as (ds & Hds & _).
  by exists ds.
Defined.


(** ** NewFromString: what the constructor does *)

Section NewFromStringExtras.
Variable VEvent : Type.
Variable construct_event :
  list string → option string → option string → Locale →
  list action * option VEvent.
Variable make_Event : VEvent → string → Locale → Event.
Variable encode : string → string → string.

#[local] Abbreviation NewFromString :=
  (NewFromString VEvent construct_event make_Event encode).

(** X11. When the text is understood and the calendar takes the event, the
    event is made for the default calendar of the collection and stored
    first. Then its long form is echoed when [print_new] is "event", the
    encoded path of its file (the path of its calendar, then its href)
    when [print_new] is "path", and nothing for any other value. *)
Theorem NewFromString_stored collection conf date_list location repeat
    parsing vevent :
  construct_event date_list location repeat (locale conf)
  = (parsing, Some vevent) →
  let event :=
    make_Event vevent (default_calendar_name collection) (locale conf) in
  new collection event = true →
  ∃ echoed,
    NewFromString collection conf date_list location repeat
    = parsing ++ Store event :: echoed
    ∧ (print_new conf = "event"%string → echoed = [Echo (long event)])
    ∧ (print_new conf = "path"%string →
       echoed
       = [Echo (encode
                  (String.append (calname_path collection (calendar event))
                     (href event))
                  (encoding (locale conf)))])
    ∧ (print_new conf ≠ "event"%string → print_new conf ≠ "path"%string →
       echoed = []).
Proof.
  intros Hparse event Hnew. unfold NewFromString. rewrite Hparse.
  fold event. rewrite Hnew. eexists. split; [done|].
  destruct (String.eqb_spec (print_new conf) "event") as [He|He].
  { rewrite He. by repeat split. }
  destruct (String.eqb_spec (print_new conf) "path") as [Hp|Hp].
  { rewrite Hp. by repeat split. }
  by repeat split.
Qed.

(** X10. What the constructor itself does after the parsing is safe in
    every run: if it exits, the status is 1, the exit is its last action
    and it has neither stored nor echoed anything; and it echoes only
    after it stored the event, in a calendar that took it. *)
Theorem NewFromString_safe collection conf date_list location repeat :
  ∃ own,
    NewFromString collection conf date_list location repeat
    = (construct_event date_list location repeat (locale conf)).1 ++ own
    ∧ (∀ status, Exit status ∈ own →
         status = 1 ∧ last own = Some (Exit 1)
         ∧ (∀ event, Store event ∉ own) ∧ (∀ text, Echo text ∉ own))
    ∧ (∀ text, Echo text ∈ own →
         ∃ event, own = [Store event; Echo text]
                  ∧ new collection event = true).
Proof.
  unfold NewFromString.
  destruct (construct_event date_list location repeat (locale conf))
    as [parsing [vevent|]]; simpl.
  - set (event := make_Event vevent _ _).
    destruct (new collection event) eqn:Hnew.
    + eexists. split; [done|]. split.
      * intros status Hin. exfalso.
        apply elem_of_cons in Hin as [Hin|Hin]; [done|].
        repeat destruct (String.eqb _ _);
          repeat (apply elem_of_cons in Hin as [Hin|Hin]; [done|]);
          by apply elem_of_nil in Hin.
      * intros text Hin. exists event. split; [|done].
        apply elem_of_cons in Hin as [Hin|Hin]; [done|].
        repeat destruct (String.eqb _ _);
          repeat (apply elem_of_cons in Hin as [[= <-]|Hin]; [done|]);
          by apply elem_of_nil in Hin.
    + eexists. split; [done|]. split.
      * intros status Hin.
        apply elem_of_cons in Hin as [Hin|Hin]; [done|].
        apply list_elem_of_singleton in Hin as [= ->].
        repeat split; intros x Hx;
          repeat (apply elem_of_cons in Hx as [Hx|Hx]; [done|]);
          by apply elem_of_nil in Hx.
      * intros text Hin.
        repeat (apply elem_of_cons in Hin as [Hin|Hin]; [done|]).
        by apply elem_of_nil in Hin.
  - eexists. split; [done|]. split.
    + intros status [= ->]%list_elem_of_singleton.
      repeat split; by intros x Hx%list_elem_of_singleton.
    + by intros text Hin%list_elem_of_singleton.
Qed.
End NewFromStringExtras.

Lemma NewFromString_stored_witness :
  Sample2.parser ["09.04.2014"; "09:30"; "An"; "Event"]%string None None
    (locale Sample2.path_conf)
  = ([], Some Sample.an_event)
  ∧ NewFromString Event Sample2.parser Sample.make_Event Sample.encode
      (Sample.calendars true) Sample2.path_conf
      ["09.04.2014"; "09:30"; "An"; "Event"]%string None None
    = [Store Sample.an_event; Echo "/calendars/onetest.ics"].
Proof.
  split; [reflexivity|].
  destruct (NewFromString_stored Event Sample2.parser Sample.make_Event
              Sample.encode (Sample.calendars true) Sample2.path_conf
              ["09.04.2014"; "09:30"; "An"; "Event"]%string None None []
              Sample.an_event eq_refl eq_refl)
    as (echoed & -> & _ & Hpath & _).
  by rewrite Hpath.
Defined.

Lemma NewFromString_read_only_witness :
  new (Sample.calendars false) Sample.an_event = false
  ∧ NewFromString Event Sample2.parser Sample.make_Event Sample.encode
      (Sample.calendars false) Sample.conf
      ["09.04.2014"; "09:30"; "An"; "Event"]%string None None
    = [Log (read_only_message "one"); Exit 1].
Proof.
  split; [reflexivity|].
  apply (NewFromString_read_only Event Sample2.parser Sample.make_Event
           Sample.encode (Sample.calendars false) Sample.conf
           ["09.04.2014"; "09:30"; "An"; "Event"]%string None None []
           Sample.an_event); reflexivity.
Defined.

(** ** Calendar and Agenda *)

Section RendererFacts.
Variable today : date.
Variable strftime : date → string → string.
Variable datefstr : string → string → string → string + date.
Variable wrap : string → Z → list string.
Variable style_bold : string → string.
Variable colored : string → string → string.
Variable to_unicode : string → string → string.
Variable encode : string → string → string.
Variable vertical_month : Z → bool → list string.
Variable merge_columns : list string → list string → list string.

#[local] Abbreviation get_agenda :=
  (get_agenda today strftime datefstr wrap style_bold colored).
#[local] Abbreviation Agenda term :=
  (Agenda today strftime datefstr wrap style_bold colored term to_unicode).
#[local] Abbreviation Calendar term :=
  (Calendar today strftime datefstr wrap style_bold colored term encode
     vertical_month merge_columns).

Lemma get_agenda_no_events collection locale dates days events width ds :
  ¬ (days ≠ None ∧ events ≠ None) →
  agenda_dates today datefstr locale dates = inr ds →
  (∀ day, day ∈ expand_days ds (days_default days) →
     has_events collection day = false) →
  get_agenda collection locale dates days events width false
  = Returned [style_bold "No events"%string].
Proof.
  intros Hpre Hds Hnone.
  rewrite (get_agenda_returned _ _ _ _ _ _ _ _ _ _ _ _ _ ds Hpre Hds)
    by (by rewrite wraps_event_false, andb_false_r).
  rewrite agenda_loop_blocks, app_nil_l, flat_map_nil; [done|].
  intros [day dayname] Hin. unfold agenda_daylist in Hin.
  rewrite construct_daynames_map in Hin.
  apply list_elem_of_fmap in Hin as (d & [= -> ->] & Hd).
  rewrite day_block_cases, Hnone by done. done.
Qed.

(** X13. With a collection that has no event on any day of the range, and
    days without events hidden, [Agenda] echoes one text, the encoded line
    "No events", on a terminal of any size. *)
Theorem Agenda_no_events term collection date firstweekday encoding kwargs ds :
  ¬ (kw_days kwargs ≠ None ∧ kw_events kwargs ≠ None) →
  agenda_dates today datefstr (kw_locale kwargs) date = inr ds →
  (∀ day, day ∈ expand_days ds (days_default (kw_days kwargs)) →
     get_allday_by_time_range collection day = []
     ∧ get_datetime_by_time_range collection
         (combine day time_min) (combine day time_max) = []) →
  Agenda term collection date firstweekday encoding false kwargs
  = Returned [Echo (to_unicode (style_bold "No events"%string) encoding)].
Proof.
  intros Hpre Hds Hnone. unfold Agenda. destruct term as [term_width rows].
  rewrite (get_agenda_no_events _ _ _ _ _ _ ds Hpre Hds); [done|].
  intros day Hday. destruct (Hnone day Hday) as [Ha Ht].
  unfold has_events. by rewrite Ha, Ht.
Qed.

(** X14. [Calendar] and [Agenda] show the same agenda: the column that
    [Calendar] merges with the month on a terminal of [w + 29] columns is
    the column that [Agenda] prints on a terminal of [w] columns, and both
    end as [get_agenda] ends when it does not return. Their default [date]
    arguments, the empty list and [None], both stand for today. *)
Theorem Calendar_Agenda_column (w rows1 rows2 : Z) collection firstweekday
    encoding weeknumber show_all_days kwargs :
  let column :=
    get_agenda collection (kw_locale kwargs) None (kw_days kwargs)
      (kw_events kwargs) w show_all_days in
  Agenda (w, rows1) collection None firstweekday encoding show_all_days kwargs
  = match column with
    | Returned event_column =>
        Returned [Echo (to_unicode (join_lines event_column) encoding)]
    | AssertionError => AssertionError
    | SystemExit logged status => SystemExit logged status
    | ValueError => ValueError
    end
  ∧ Calendar (w + 29, rows2) collection (Some []) firstweekday encoding
      weeknumber show_all_days kwargs
    = match column with
      | Returned event_column =>
          Returned
            [Echo
               (encode
                  (join_lines
                     (merge_columns (vertical_month firstweekday weeknumber)
                        event_column))
                  encoding)]
      | AssertionError => AssertionError
      | SystemExit logged status => SystemExit logged status
      | ValueError => ValueError
      end.
Proof.
  intros column. split; [done|]. unfold Calendar, rwidth, lwidth.
  by replace (w + 29 - 25 - 4) with w by lia.
Qed.
End RendererFacts.

(** X15. On a terminal of at most 29 columns the width that [Calendar]
    leaves for the agenda is not positive, and those are exactly the
    widths for which [textwrap.wrap] raises [ValueError] instead of
    wrapping a description. *)
Theorem Calendar_narrow_terminal split_chunks (text : string)
    (term_width : Z) :
  TextWrap.wrap split_chunks text (rwidth term_width) = None
  ↔ term_width ≤ 29.
Proof.
  unfold TextWrap.wrap, rwidth, lwidth.
  destruct (TextWrap.wrap_chunks _ _) as [lines|] eqn:Hwrap; simpl.
  - split; [done|]. intros Hw.
    assert (TextWrap.wrap_chunks (term_width - 25 - 4) (split_chunks text)
            = None) as Hnone
      by (apply TextWrapFacts.wrap_chunks_value_error; lia).
    congruence.
  - split; [|done]. intros _.
    apply TextWrapFacts.wrap_chunks_value_error in Hwrap. lia.
Qed.

Lemma Agenda_no_events_witness :
  agenda_dates Sample.today Sample.datefstr (kw_locale Sample2.kwargs) None
  = inr [Sample.today]
  ∧ Agenda Sample.today Sample.strftime Sample.datefstr Sample.wrap
      Sample.style_bold Sample.colored Sample2.get_terminal_size
      Sample2.to_unicode Sample.collection None 0 "utf-8" false
      Sample2.kwargs
    = Returned [Echo "No events"].
Proof.
  split; [reflexivity|].
  apply (Agenda_no_events Sample.today Sample.strftime Sample.datefstr
           Sample.wrap Sample.style_bold Sample.colored Sample2.to_unicode
           Sample2.get_terminal_size Sample.collection None 0 "utf-8"
           Sample2.kwargs [Sample.today]).
  - intros [H _]. by apply H.
  - reflexivity.
  - intros day Hday.
    assert (day = Sample.today ∨ day = Sample.today + 1) as [->| ->];
      [|by vm_compute..].
    change (expand_days [Sample.today] (days_default (kw_days Sample2.kwargs)))
      with [Sample.today; Sample.today + 1] in Hday.
    apply elem_of_cons in Hday as [->|Hday]; [by left|].
    apply list_elem_of_singleton in Hday as ->. by right.
Defined.
